(** * Joblyst: the matching pipeline and its history store

    A shallow embedding of [job_history.py] (class [JobHistory]) and of the
    core of [main.py] ([cleanHtml], [normalizeJob], the four filters,
    [computeKeywordScore], [scoreJobHybrid], [sendToDiscord] and the loop of
    [runJoblyst]), followed by the properties of the design document that
    are stated about them.

    Conventions of the embedding.
    - A Python [str] is a [string]; its characters are the code points
      0..255, so [lower], [strip] and the comparison operators are the
      restrictions of Python's to that range.
    - A Python [dict] is a [gmap]; the history maps a job id to the ISO-8601
      text of the time it was sent.
    - Python numbers go through the interface [PyNum.arith], so that the
      scorer is written once.  Its instance [PyNum.binary64] is Python's
      [float]; its instance [PyNum.exact] computes in the rationals, and is
      the one the statements about all inputs are proved for.
    - Effects are explicit: the functions that touch the history file, the
      clock or the webhook take the outcome of that interaction as an
      argument and thread a [World]. *)

From Stdlib Require Import ZArith QArith Qround Qpower Ascii String List Lia Bool.
From Stdlib Require Import Floats.PrimFloat Floats.SpecFloat Floats.FloatOps.
From Stdlib Require Import Floats.FloatAxioms.
From Stdlib Require Import Numbers.Cyclic.Int63.Uint63.
From Stdlib Require Import Lqa.
From stdpp Require Import gmap strings list fin_maps.

Local Open Scope string_scope.

(** ** Python strings *)

Module PyStr.

(** [sub in s] *)
Fixpoint contains (sub s : string) : bool :=
  String.prefix sub s ||
  match s with
  | EmptyString => false
  | String _ r => contains sub r
  end.

(** [any(p in s for p in ps)] *)
Definition any_in (ps : list string) (s : string) : bool :=
  existsb (fun p => contains p s) ps.

(** [s[:n]] for [n >= 0] *)
Fixpoint slice_to (n : nat) (s : string) : string :=
  match n, s with
  | S k, String c r => String c (slice_to k r)
  | _, _ => EmptyString
  end.

(** [s[n:]] for [n >= 0] *)
Fixpoint slice_from (n : nat) (s : string) : string :=
  match n, s with
  | S k, String _ r => slice_from k r
  | _, _ => s
  end.

(** [str.lower] on one code point below 256: the letters A-Z and the
    Latin-1 capitals U+00C0..U+00DE other than the multiplication sign
    U+00D7 move up by 32. *)
Definition lower_char (c : ascii) : ascii :=
  let n := nat_of_ascii c in
  if ((65 <=? n) && (n <=? 90))%nat
     || ((192 <=? n) && (n <=? 222) && negb (n =? 215))%nat
  then ascii_of_nat (n + 32)
  else c.

Fixpoint lower (s : string) : string :=
  match s with
  | EmptyString => EmptyString
  | String c r => String (lower_char c) (lower r)
  end.

(** The code points below 256 that [str.strip] removes:
    TAB LF VT FF CR, FS GS RS US, SPACE, NEL and NBSP. *)
Definition is_space (c : ascii) : bool :=
  let n := nat_of_ascii c in
  ((9 <=? n) && (n <=? 13) || (28 <=? n) && (n <=? 32)
   || (n =? 133) || (n =? 160))%nat.

Fixpoint lstrip (s : string) : string :=
  match s with
  | EmptyString => EmptyString
  | String c r => if is_space c then lstrip r else s
  end.

Fixpoint rstrip (s : string) : string :=
  match s with
  | EmptyString => EmptyString
  | String c r =>
      match rstrip r with
      | EmptyString => if is_space c then EmptyString else String c EmptyString
      | r' => String c r'
      end
  end.

(** [s.strip()] *)
Definition strip (s : string) : string := rstrip (lstrip s).

(** [s.count(sub)]: occurrences counted left to right without overlap;
    [skip] is the number of characters still covered by the occurrence
    just counted. *)
Fixpoint count_from (sub : string) (skip : nat) (s : string) : nat :=
  match skip with
  | S k =>
      match s with
      | EmptyString => 0
      | String _ r => count_from sub k r
      end
  | O =>
      if String.prefix sub s
      then S (match s with
              | EmptyString => 0
              | String _ r => count_from sub (String.length sub - 1) r
              end)
      else match s with
           | EmptyString => 0
           | String _ r => count_from sub 0 r
           end
  end.

Definition count (sub s : string) : nat := count_from sub 0 s.

(** [a < b] and [a > b] on [str]: lexicographic on code points. *)
Definition lt (a b : string) : bool := String.ltb a b.
Definition gt (a b : string) : bool := String.ltb b a.

(** Truthiness of a value that is [None] or a [str]. *)
Definition truthy (v : option string) : bool :=
  match v with
  | Some (String _ _) => true
  | _ => false
  end.

End PyStr.

(** ** Dates and times

    [datetime] values as Python keeps them (seven fields), the ordinal
    arithmetic behind [datetime - timedelta(days=n)] and [isoformat()].  The
    ordinal conversions follow the standard library's [_ymd2ord] and
    [_ord2ymd]. *)

Module PyTime.

Local Open Scope Z_scope.

Record datetime : Type := mkDatetime {
  year : Z; month : Z; day : Z;
  hour : Z; minute : Z; second : Z; microsecond : Z
}.

(** The field ranges of a [datetime] object ([MINYEAR] = 1,
    [MAXYEAR] = 9999). *)
Definition wf_datetime (d : datetime) : Prop :=
  1 <= year d <= 9999 /\ 1 <= month d <= 12 /\ 1 <= day d <= 31 /\
  0 <= hour d < 24 /\ 0 <= minute d < 60 /\ 0 <= second d < 60 /\
  0 <= microsecond d < 1000000.

Definition wf_datetimeb (d : datetime) : bool :=
  (1 <=? year d) && (year d <=? 9999) && (1 <=? month d) && (month d <=? 12)
  && (1 <=? day d) && (day d <=? 31)
  && (0 <=? hour d) && (hour d <? 24) && (0 <=? minute d) && (minute d <? 60)
  && (0 <=? second d) && (second d <? 60)
  && (0 <=? microsecond d) && (microsecond d <? 1000000).

(** Comparison of two [datetime]s: field by field, most significant
    first. *)
Definition lex (c : comparison) (k : comparison) : comparison :=
  match c with
  | Eq => k
  | _ => c
  end.

Definition dt_compare (a b : datetime) : comparison :=
  lex (year a ?= year b)
  (lex (month a ?= month b)
  (lex (day a ?= day b)
  (lex (hour a ?= hour b)
  (lex (minute a ?= minute b)
  (lex (second a ?= second b)
       (microsecond a ?= microsecond b)))))).

(** [a < b] *)
Definition dt_lt (a b : datetime) : Prop := dt_compare a b = Lt.

Definition is_leap (y : Z) : bool :=
  (y mod 4 =? 0) && (negb (y mod 100 =? 0) || (y mod 400 =? 0)).

Definition DAYS_IN_MONTH : list Z :=
  [-1; 31; 28; 31; 30; 31; 30; 31; 31; 30; 31; 30; 31].

Definition DAYS_BEFORE_MONTH : list Z :=
  [-1; 0; 31; 59; 90; 120; 151; 181; 212; 243; 273; 304; 334].

Definition tbl (t : list Z) (i : Z) : Z := nth (Z.to_nat i) t 0.

Definition b2z (b : bool) : Z := if b then 1 else 0.

Definition days_before_year (y : Z) : Z :=
  let y := y - 1 in y * 365 + y / 4 - y / 100 + y / 400.

Definition days_before_month (y m : Z) : Z :=
  tbl DAYS_BEFORE_MONTH m + b2z ((2 <? m) && is_leap y).

Definition ymd2ord (y m d : Z) : Z :=
  days_before_year y + days_before_month y m + d.

Definition DI400Y : Z := 146097.
Definition DI100Y : Z := 36524.
Definition DI4Y : Z := 1461.
Definition MAXORDINAL : Z := 3652059.

Definition ord2ymd (n : Z) : Z * Z * Z :=
  let n := n - 1 in
  let n400 := n / DI400Y in
  let n := n mod DI400Y in
  let year := n400 * 400 + 1 in
  let n100 := n / DI100Y in
  let n := n mod DI100Y in
  let n4 := n / DI4Y in
  let n := n mod DI4Y in
  let n1 := n / 365 in
  let n := n mod 365 in
  let year := year + n100 * 100 + n4 * 4 + n1 in
  if (n1 =? 4) || (n100 =? 4) then (year - 1, 12, 31)
  else
    let leapyear := (n1 =? 3) && (negb (n4 =? 24) || (n100 =? 3)) in
    let month := Z.shiftr (n + 50) 5 in
    let preceding := tbl DAYS_BEFORE_MONTH month + b2z ((2 <? month) && leapyear) in
    if n <? preceding
    then
      let month := month - 1 in
      let preceding :=
        preceding - (tbl DAYS_IN_MONTH month + b2z ((month =? 2) && leapyear)) in
      (year, month, n - preceding + 1)
    else (year, month, n - preceding + 1).

(** [d - timedelta(days=n)]; [None] is the [OverflowError] that Python
    raises when [n] is not a valid number of days or the date leaves the
    supported range. *)
Definition sub_days (d : datetime) (n : Z) : option datetime :=
  if 999999999 <? Z.abs n then None
  else
    let o := ymd2ord (year d) (month d) (day d) - n in
    if (0 <? o) && (o <=? MAXORDINAL)
    then
      let '(y, m, dd) := ord2ymd o in
      Some (mkDatetime y m dd (hour d) (minute d) (second d) (microsecond d))
    else None.

Definition digit (n : Z) : ascii := ascii_of_nat (48 + Z.to_nat (n mod 10)).

(** ["%0wd" % n] for [0 <= n < 10^w] *)
Fixpoint pad (w : nat) (n : Z) : string :=
  match w with
  | O => EmptyString
  | S k => String (digit (n / 10 ^ Z.of_nat k)) (pad k n)
  end.

(** [d.isoformat()]: the fraction is printed only when it is not zero. *)
Definition isoformat (d : datetime) : string :=
  pad 4 (year d) ++ "-" ++ pad 2 (month d) ++ "-" ++ pad 2 (day d) ++ "T" ++
  pad 2 (hour d) ++ ":" ++ pad 2 (minute d) ++ ":" ++ pad 2 (second d) ++
  (if microsecond d =? 0 then "" else "." ++ pad 6 (microsecond d)).

End PyTime.

(** ** The history store ([job_history.py]) *)

Module History.

Import PyTime.

(** What the history file holds: nothing, a JSON object, or bytes that
    [json.load] refuses. *)
Inductive file_state : Type :=
| FileAbsent
| FileJson (h : gmap string string)
| FileMalformed.

(** How [open(..., 'w')] followed by [json.dump] ends: the file holds the
    dumped object, or an exception was raised and the file is left in the
    given state. *)
Inductive save_outcome : Type :=
| SaveOk
| SaveFails (remains : file_state).

Record JobHistory : Type := mkJobHistory {
  retention_days : Z;
  history : gmap string string
}.

(** [_load_history] *)
Definition load_history (f : file_state) : gmap string string :=
  match f with
  | FileAbsent => ∅
  | FileJson h => h
  | FileMalformed => ∅
  end.

(** [JobHistory.__init__] *)
Definition init (f : file_state) (retention : Z) : JobHistory :=
  mkJobHistory retention (load_history f).

(** [_save_history]: the exception of a failed write is logged and
    swallowed. *)
Definition save_history (wo : save_outcome) (jh : JobHistory)
    (f : file_state) : file_state :=
  match wo with
  | SaveOk => FileJson (history jh)
  | SaveFails remains => remains
  end.

(** [is_sent] *)
Definition is_sent (job_id : string) (jh : JobHistory) : bool :=
  bool_decide (is_Some (history jh !! job_id)).

(** The dictionary comprehension of [cleanup_old_entries]. *)
Definition keep_newer (cutoff_timestamp : string)
    (h : gmap string string) : gmap string string :=
  filter (λ kv : string * string, Is_true (PyStr.gt kv.2 cutoff_timestamp)) h.

End History.

(** ** Python numbers *)

Module PyNum.

(** What the scorer needs of numbers: the conversion of an [int], the
    three operations it uses, the test [x > 0], and the exact value of a
    finite number (for [int(x)] and [round(x)]). *)
Record arith : Type := mkArith {
  num : Type;
  of_int : Z -> num;
  add : num -> num -> num;
  mul : num -> num -> num;
  div : num -> num -> num;
  is_pos : num -> bool;
  value : num -> Q
}.

(** The decimal literal [n/d], as in [0.8] or [0.70]. *)
Definition dec (a : arith) (n d : Z) : num a :=
  div a (of_int a n) (of_int a d).

(** [max(0, x)]: the first argument unless the second is greater. *)
Definition max0 (a : arith) (x : num a) : num a :=
  if is_pos a x then x else of_int a 0.

(** Truncation toward zero. *)
Definition trunc (x : Q) : Z := Z.quot (Qnum x) (Zpos (Qden x)).

(** To the nearest integer, a tie to the even one. *)
Definition round_half_even (x : Q) : Z :=
  let f := Qfloor x in
  let r := (x - inject_Z f)%Q in
  if Qle_bool r (1 # 2)
  then (if Qle_bool (1 # 2) r then (if Z.even f then f else f + 1)%Z else f)
  else (f + 1)%Z.

(** [int(x)] and [round(x)] *)
Definition py_int (a : arith) (x : num a) : Z := trunc (value a x).
Definition py_round (a : arith) (x : num a) : Z := round_half_even (value a x).

(** Exact arithmetic. *)
Definition exact : arith :=
  mkArith Q inject_Z Qplus Qmult Qdiv (fun x => negb (Qle_bool x 0)) (fun x => x).

(** IEEE 754 binary64, Python's [float].  An [int] below 2^53 in
    magnitude converts exactly.  The value of an infinity or a NaN, on
    which [int] and [round] raise, is left at 0. *)
Definition float_of_int (z : Z) : float :=
  if (z <? 0)%Z
  then PrimFloat.opp (PrimFloat.of_uint63 (Uint63.of_Z (- z)))
  else PrimFloat.of_uint63 (Uint63.of_Z z).

Definition float_value (x : float) : Q :=
  match Prim2SF x with
  | S754_finite s m e =>
      ((if s then (-1) else 1) * inject_Z (Zpos m) * Qpower 2 e)%Q
  | _ => 0%Q
  end.

Definition binary64 : arith :=
  mkArith float float_of_int PrimFloat.add PrimFloat.mul PrimFloat.div
          (fun x => PrimFloat.ltb PrimFloat.zero x) float_value.

End PyNum.

(** ** The pipeline ([main.py]) *)

Module Joblyst.

Import PyStr PyTime History PyNum.

Record Job : Type := mkJob {
  title : string;
  company : string;
  location : string;
  description : string;
  applyLink : string;
  email : option string;
  id : string
}.

Definition is_char (a : ascii) (c : ascii) : bool :=
  if ascii_dec a c then true else false.

Fixpoint has_gt (s : string) : bool :=
  match s with
  | EmptyString => false
  | String c r => is_char ">" c || has_gt r
  end.

(** Whether the text after a ["<"] lets the pattern [<[^>]+>] match
    there: one character other than [">"], and a [">"] somewhere after
    it. *)
Definition opens_tag (r : string) : bool :=
  match r with
  | EmptyString => false
  | String d r' => negb (is_char ">" d) && has_gt r'
  end.

(** [re.sub(r'<[^>]+>', ' ', s)] as a left-to-right scan; [inside] holds
    while the characters of a match are being consumed, up to and
    including the first [">"]. *)
Fixpoint sub_tags (inside : bool) (s : string) : string :=
  match s with
  | EmptyString => EmptyString
  | String c r =>
      if inside
      then (if is_char ">" c then sub_tags false r else sub_tags true r)
      else if is_char "<" c && opens_tag r
           then String " " (sub_tags true r)
           else String c (sub_tags false r)
  end.

(** [cleanHtml] *)
Definition cleanHtml (text : option string) : string :=
  match text with
  | Some (String c r) => strip (sub_tags false (String c r))
  | _ => EmptyString
  end.

(** [normalizeJob]; [None] in an argument is Python's [None]. *)
Definition normalizeJob (title company location description : option string)
    (applyLink : string) (email : option string) : option Job :=
  if negb (truthy title) || negb (truthy company) then None
  else
    let title := strip (cleanHtml title) in
    let company := strip (cleanHtml company) in
    let location :=
      if truthy location then strip (cleanHtml location) else "pakistan" in
    let description := strip (cleanHtml description) in
    Some {| title := lower title;
            company := company;
            location := lower location;
            description := lower description;
            applyLink := applyLink;
            email := email;
            id := slice_to 30 (lower company) ++ "-" ++ slice_to 40 (lower title) |}.

(** [f"{title} {desc}"] *)
Definition combined (t d : string) : string := t ++ " " ++ d.

Definition myTechStack : list string :=
  [ "python"; "javascript"; "typescript"; "react"; "next"; "nextjs";
    "node"; "nodejs"; "nest"; "nestjs";
    "full stack"; "fullstack"; "full-stack";
    "frontend"; "backend"; "web developer";
    "ai"; "ml"; "machine learning"; "artificial intelligence";
    "mern"; "mean"; "mongodb"; "database";
    "fastapi"; "software engineer" ].

Definition rejectPatterns : list string :=
  [ "senior"; "sr."; "sr "; "lead"; "principal"; "staff engineer"; "director";
    "5+ year"; "6+ year"; "7+ year"; "8+ year"; "10+ year";
    "5 year"; "6 year"; "7 year"; "8 year";
    "mid-level"; "mid level"; "intermediate"; "experienced";
    "3+ year"; "4+ year"; "3 year"; "4 year" ].

Definition freshPatterns : list string :=
  [ "fresh"; "junior"; "entry"; "graduate"; "intern"; "trainee";
    "0-1"; "0-2"; "1-2"; "associate"; "entry level"; "entry-level" ].

Definition entryLevelTitles : list string :=
  [ "developer"; "engineer"; "programmer" ].

Definition excludedTech : list string :=
  [ "flutter"; "swift"; "kotlin"; "ios"; "android";
    "angular"; "vue"; "vue.js";
    ".net"; "c#"; "csharp"; "asp.net";
    "laravel"; "php"; "symfony";
    "ruby"; "rails"; "ruby on rails";
    "golang"; "go developer";
    "salesforce"; "sap"; "oracle";
    "shopify"; "wordpress"; "drupal";
    "unity"; "unreal"; "game dev";
    "devops"; "sre"; "infrastructure"; "network engineer";
    "qa"; "test"; "quality assurance"; "sdet" ].

(** The loop over [rejectPatterns]: [false] at the first pattern found. *)
Fixpoint reject_scan (patterns : list string) (text : string) : bool :=
  match patterns with
  | [] => false
  | p :: ps => if contains p text then true else reject_scan ps text
  end.

(** [experienceFilter] *)
Definition experienceFilter (job : Job) : bool :=
  let desc := description job in
  let title := title job in
  let combined := combined title desc in
  if reject_scan rejectPatterns combined then false
  else
    let has_fresh := any_in freshPatterns combined in
    if has_fresh then true
    else if any_in entryLevelTitles title
            && negb (contains "senior" title) && negb (contains "lead" title)
         then true
         else false.

(** The two loops of [skillsExclusionFilter]. *)
Fixpoint in_title_scan (techs : list string) (title : string) : bool :=
  match techs with
  | [] => false
  | t :: ts => if contains t title then true else in_title_scan ts title
  end.

Fixpoint emphasis_scan (techs : list string) (text : string) : bool :=
  match techs with
  | [] => false
  | t :: ts => if (2 <=? count t text)%nat then true else emphasis_scan ts text
  end.

(** [skillsExclusionFilter] *)
Definition skillsExclusionFilter (job : Job) : bool :=
  let title := lower (title job) in
  let desc := lower (description job) in
  let combined := combined title desc in
  if in_title_scan excludedTech title then false
  else if emphasis_scan excludedTech combined then false
  else true.

(** The keyword score and the boosts, over an arithmetic [a]. *)

Definition synonyms : list (string * list string) :=
  [ ("next.js", ["nextjs"; "next js"; "react framework"]);
    ("nest.js", ["nestjs"; "nest js"]);
    ("react", ["reactjs"; "react.js"]);
    ("node", ["nodejs"; "node.js"]);
    ("mongodb", ["mongo"; "nosql"; "database"]);
    ("typescript", ["ts"; "javascript"]);
    ("python", ["py"]);
    ("fastapi", ["fast api"; "python backend"]);
    ("ai", ["artificial intelligence"; "machine learning"; "ml"]);
    ("full stack", ["fullstack"; "full-stack"; "frontend"; "backend"]) ].

(** The inner [for key, syns in synonyms.items()] loop, which leaves at
    the first family that gives credit: whether [0.8] is added. *)
Fixpoint synonym_match (families : list (string * list string))
    (skill_lower text : string) : bool :=
  match families with
  | [] => false
  | (key, syns) :: rest =>
      if (contains key skill_lower || contains skill_lower key)
         && any_in syns text
      then true
      else synonym_match rest skill_lower text
  end.

(** One iteration of the [for skill in cvSkills] loop: [matches]
    afterwards. *)
Definition add_credit (a : arith) (text : string) (matches : num a)
    (skill : string) : num a :=
  let skill_lower := lower skill in
  if contains skill_lower text then add a matches (of_int a 1)
  else if synonym_match synonyms skill_lower text
       then add a matches (dec a 8 10)
       else matches.

(** [computeKeywordScore] *)
Definition computeKeywordScore (a : arith) (job : Job)
    (cvSkills : list string) : num a :=
  let text := lower (combined (title job) (description job)) in
  let matches := fold_left (add_credit a text) cvSkills (of_int a 0) in
  let total := List.length cvSkills in
  if (0 <? total)%nat then div a matches (of_int a (Z.of_nat total))
  else of_int a 0.

Definition freshKeywords : list string :=
  [ "fresh"; "junior"; "entry"; "graduate"; "intern"; "trainee"; "associate" ].

Definition highPriorityRoles : list string :=
  [ "mern"; "mean"; "full stack"; "fullstack"; "full-stack";
    "web developer"; "react"; "next.js"; "nextjs"; "node.js"; "nodejs";
    "javascript developer"; "typescript developer"; "frontend"; "backend" ].

Definition mediumPriorityRoles : list string :=
  [ "software engineer"; "software developer"; "programmer" ].

Definition lowPriorityRoles : list string :=
  [ "ai engineer"; "ml engineer"; "data science"; "machine learning" ].

Definition freshGradBoost (a : arith) (job : Job) : num a :=
  if existsb (fun kw => contains kw (lower (title job))
                        || contains kw (lower (description job))) freshKeywords
  then dec a 15 100 else of_int a 0.

Definition roleBoost (a : arith) (job : Job) : num a :=
  let combined := combined (lower (title job)) (lower (description job)) in
  if any_in highPriorityRoles combined then dec a 20 100
  else if any_in mediumPriorityRoles combined then dec a 10 100
  else if any_in lowPriorityRoles combined then dec a 5 100
  else of_int a 0.

(** What is posted to the webhook: the fields of the embed that depend on
    the job and its score. *)
Record payload : Type := mkPayload {
  p_job : Job;
  p_score : Z;
  p_desc : string;
  p_color : Z
}.

(** How [requests.post] ends: a response with a status code, or an
    exception (caught and logged by [sendToDiscord]). *)
Inductive post_outcome : Type :=
| PostReturns (status : Z)
| PostRaises.

(** What the run does to the outside, in the order it happens. *)
Inductive event : Type :=
| EvSave (h : gmap string string) (so : save_outcome)
| EvScore (job : Job)
| EvPost (p : payload) (po : post_outcome).

Record World : Type := mkWorld {
  jobHistory : JobHistory;
  disk : file_state;
  trace : list event
}.

(** The answers of the environment during one step: the clock, the file
    system and the webhook. *)
Record oracle : Type := mkOracle {
  o_now : datetime;
  o_save : save_outcome;
  o_post : post_outcome
}.

(** [JobHistory._save_history] in a world. *)
Definition save (so : save_outcome) (w : World) : World :=
  {| jobHistory := jobHistory w;
     disk := save_history so (jobHistory w) (disk w);
     trace := trace w ++ [EvSave (history (jobHistory w)) so] |}.

(** [JobHistory.mark_as_sent] *)
Definition mark_as_sent (now : datetime) (so : save_outcome)
    (job_id : string) (w : World) : World :=
  let jh := jobHistory w in
  save so {| jobHistory := mkJobHistory (retention_days jh)
                             (<[job_id := isoformat now]> (history jh));
             disk := disk w;
             trace := trace w |}.

(** [JobHistory.cleanup_old_entries]; [None] is the [OverflowError] of
    the date arithmetic. *)
Definition cleanup_old_entries (now : datetime) (so : save_outcome)
    (w : World) : option (nat * World) :=
  let jh := jobHistory w in
  match sub_days now (retention_days jh) with
  | None => None
  | Some cutoff_date =>
      let cutoff_timestamp := isoformat cutoff_date in
      let initial_count := size (history jh) in
      let w' := {| jobHistory := mkJobHistory (retention_days jh)
                                   (keep_newer cutoff_timestamp (history jh));
                   disk := disk w;
                   trace := trace w |} in
      let removed_count := (initial_count - size (history (jobHistory w')))%nat in
      if (0 <? removed_count)%nat
      then Some (removed_count, save so w')
      else Some (removed_count, w')
  end.

Definition make_payload (job : Job) (score : Z) : payload :=
  let desc :=
    if (400 <? String.length (description job))%nat
    then (slice_to 400 (description job) ++ "...")%string
    else description job in
  let desc :=
    match desc with
    | EmptyString => "No description available"%string
    | _ => desc
    end in
  let color :=
    if (70 <=? score)%Z then 5763719%Z
    else if (50 <=? score)%Z then 16776960%Z else 15105570%Z in
  mkPayload job score desc color.

(** [sendToDiscord] *)
Definition sendToDiscord (o : oracle) (job : Job) (score : Z)
    (w : World) : World :=
  if is_sent (id job) (jobHistory w) then w
  else
    let w := mark_as_sent (o_now o) (o_save o) (id job) w in
    {| jobHistory := jobHistory w;
       disk := disk w;
       trace := trace w ++ [EvPost (make_payload job score) (o_post o)] |}.

Section Globals.

(** The module-level state of [main.py]: the configuration, the
    embedding model and the candidate's profile. *)
Variable allowedRoles : list string.
Variable allowedLocations : list string.
Variable minScore : Z.
Variable a : arith.
Variable embedding : Type.
Variable encode : string -> embedding.
Variable cosine : embedding -> embedding -> num a.

(** [roleFilter] *)
Definition roleFilter (job : Job) : bool :=
  let combined := combined (title job) (description job) in
  let ok := any_in allowedRoles combined in
  if negb ok then any_in myTechStack combined else ok.

(** [locationFilter] *)
Definition locationFilter (job : Job) : bool :=
  let loc := location job in
  any_in allowedLocations loc || contains "remote" loc.

(** [scoreJobHybrid] *)
Definition scoreJobHybrid (job : Job) (cvEmbedding : embedding)
    (cvSkills : list string) : Z :=
  let jobText :=
    (title job ++ " " ++ description job ++ " " ++ company job)%string in
  let jobEmbedding := encode jobText in
  let cosineScore := cosine cvEmbedding jobEmbedding in
  let cosineScore := max0 a cosineScore in
  let keywordScore := computeKeywordScore a job cvSkills in
  let baseScore :=
    add a (mul a cosineScore (dec a 70 100)) (mul a keywordScore (dec a 30 100)) in
  let totalScore :=
    py_int a (mul a (add a (add a baseScore (freshGradBoost a job))
                           (roleBoost a job))
                    (of_int a 100)) in
  Z.min 100 totalScore.

Variable cvEmbedding : embedding.
Variable cvSkills : list string.

(** The body of the [for job in allJobs] loop of [runJoblyst]; the
    second component is what it adds to [matchedJobs]. *)
Definition process_job (o : oracle) (job : Job) (w : World) : World * nat :=
  if is_sent (id job) (jobHistory w) then (w, 0%nat)
  else if negb (roleFilter job) then (w, 0%nat)
  else if negb (locationFilter job) then (w, 0%nat)
  else if negb (experienceFilter job) then (w, 0%nat)
  else if negb (skillsExclusionFilter job) then (w, 0%nat)
  else
    let score := scoreJobHybrid job cvEmbedding cvSkills in
    let w := {| jobHistory := jobHistory w;
                disk := disk w;
                trace := trace w ++ [EvScore job] |} in
    if (minScore <=? score)%Z
    then (sendToDiscord o job score w, 1%nat)
    else (w, 0%nat).

(** The loop itself; [env i] answers for the job at position [i]. *)
Fixpoint process_jobs (env : nat -> oracle) (i : nat) (allJobs : list Job)
    (w : World) : World * nat :=
  match allJobs with
  | [] => (w, 0%nat)
  | job :: rest =>
      let '(w1, m1) := process_job (env i) job w in
      let '(w2, m2) := process_jobs env (S i) rest w1 in
      (w2, (m1 + m2)%nat)
  end.

(** [runJoblyst]: [o0] answers for the cleanup, [allJobs] is what the
    scrapers returned.  [None] is an uncaught exception. *)
Definition runJoblyst (o0 : oracle) (env : nat -> oracle)
    (allJobs : list Job) (w : World) : option (World * nat) :=
  match cleanup_old_entries (o_now o0) (o_save o0) w with
  | None => None
  | Some (_, w1) =>
      match allJobs with
      | [] => Some (w1, 0%nat)
      | _ => Some (process_jobs env 0 allJobs w1)
      end
  end.

End Globals.

End Joblyst.

(** ** Vocabulary of the properties *)

Module Props.

Import PyStr PyTime History PyNum Joblyst.

Local Open Scope Z_scope.

(** The month and day that [ord2ymd] derives from the day of the year. *)
Definition month_day (n : Z) (leapyear : bool) : Z * Z :=
  let month := Z.shiftr (n + 50) 5 in
  let preceding := tbl DAYS_BEFORE_MONTH month + b2z ((2 <? month) && leapyear) in
  if n <? preceding
  then
    let month := month - 1 in
    let preceding :=
      preceding - (tbl DAYS_IN_MONTH month + b2z ((month =? 2) && leapyear)) in
    (month, n - preceding + 1)
  else (month, n - preceding + 1).

Definition month_day_ok (leapyear : bool) (k : nat) : bool :=
  let '(m, d) := month_day (Z.of_nat k) leapyear in
  (1 <=? m) && (m <=? 12) && (1 <=? d) && (d <=? 31).

Definition dt_ltb (a b : datetime) : bool :=
  match dt_compare a b with
  | Lt => true
  | _ => false
  end.

(** [None] or a [str], trimmed. *)
Definition trimmed (v : option string) : string :=
  match v with
  | Some s => strip s
  | None => EmptyString
  end.

(** A match of [<[^>]+>] starts somewhere in [s]. *)
Fixpoint has_tag (s : string) : bool :=
  match s with
  | EmptyString => false
  | String c r => (is_char "<" c && opens_tag r) || has_tag r
  end.

(** The operations of the store that can follow a [mark_as_sent]. *)
Inductive store_op : Type :=
| OpMark (now : datetime) (so : save_outcome) (job_id : string)
| OpCleanup (now : datetime) (so : save_outcome).

Fixpoint run_ops (ops : list store_op) (w : World) : option World :=
  match ops with
  | [] => Some w
  | OpMark now so job_id :: rest => run_ops rest (mark_as_sent now so job_id w)
  | OpCleanup now so :: rest =>
      match cleanup_old_entries now so w with
      | Some (_, w') => run_ops rest w'
      | None => None
      end
  end.

(** The entry of [job_id], last stamped at [t], stays inside the
    retention window along [ops]: every cleanup runs at a time whose
    cutoff [now - retention] is before the stamp; a later [mark_as_sent]
    of the same id restamps the entry. *)
Fixpoint in_window (retention : Z) (job_id : string) (t : datetime)
    (ops : list store_op) : bool :=
  match ops with
  | [] => true
  | OpMark now _ job_id' :: rest =>
      if String.eqb job_id' job_id
      then wf_datetimeb now && in_window retention job_id now rest
      else in_window retention job_id t rest
  | OpCleanup now _ :: rest =>
      wf_datetimeb now
      && match sub_days now retention with
         | Some cutoff => dt_ltb cutoff t
         | None => false
         end
      && in_window retention job_id t rest
  end.

(** The event is a call of the scorer on, or a post of, a job with this
    id. *)
Definition about (job_id : string) (e : event) : bool :=
  match e with
  | EvSave _ _ => false
  | EvScore job => String.eqb (id job) job_id
  | EvPost p _ => String.eqb (id (p_job p)) job_id
  end.

(** The ids of the jobs posted, in order. *)
Fixpoint posted (evs : list event) : list string :=
  match evs with
  | [] => []
  | EvPost p _ :: rest => id (p_job p) :: posted rest
  | _ :: rest => posted rest
  end.

(** What one step of the run, or a whole loop, may add to the trace of a
    world: nothing that concerns an id already sent, a post at most once
    per id; every posted id is in the history afterwards, and no id
    leaves the history. *)
Definition step_ok (w w' : World) : Prop :=
  exists evs,
    trace w' = (trace w ++ evs)%list /\
    (forall job_id, is_sent job_id (jobHistory w) = true ->
                    is_sent job_id (jobHistory w') = true) /\
    (forall e job_id, In e evs -> about job_id e = true ->
                      is_sent job_id (jobHistory w) = false) /\
    (forall job_id, In job_id (posted evs) ->
                    is_sent job_id (jobHistory w') = true) /\
    List.NoDup (posted evs).

(** The semantic component of the score: the similarity of the job's
    text to the profile, with [max(0, _)] applied. *)
Definition semantic (a : arith) (embedding : Type)
    (encode : string -> embedding) (cosine : embedding -> embedding -> num a)
    (job : Job) (cvEmbedding : embedding) : num a :=
  max0 a (cosine cvEmbedding
            (encode (title job ++ " " ++ description job ++ " " ++ company job)%string)).

(** The score as the design document words it:
    [round((0.70 * semantic + 0.30 * keyword + boosts) * 100)], at most
    100. *)
Definition documented_score (a : arith) (semantic keyword fresh role : num a) : Z :=
  Z.min 100
    (py_round a
       (mul a (add a (add a (add a (mul a (dec a 70 100) semantic)
                                   (mul a (dec a 30 100) keyword))
                            fresh)
                     role)
              (of_int a 100))).






(** No two whitespace characters in a row. *)
Fixpoint collapsed (s : string) : bool :=
  match s with
  | EmptyString => true
  | String a r =>
      match r with
      | EmptyString => true
      | String b _ => negb (is_space a && is_space b) && collapsed r
      end
  end.

End Props.

(** ** The statements of the design document that the code does not meet,
    as the document words them *)

Module Documented.

Import PyStr PyTime History PyNum Joblyst Props.


(** "Returns null if title or company is empty after trimming", and
    only then. *)
Definition rejects_blank (title company location description : option string)
    (applyLink : string) (email : option string) : Prop :=
  normalizeJob title company location description applyLink email = None <->
  trimmed title = EmptyString \/ trimmed company = EmptyString.

(** "Strips HTML markup from every text field, collapses internal
    whitespace runs to a single space, lower-cases
    title/company/location/description (but not applyLink)". *)
Definition fields_normalized (title company location description : option string)
    (applyLink : string) (email : option string) : Prop :=
  forall j,
    normalizeJob title company location description applyLink email = Some j ->
    (has_tag (Joblyst.title j) = false /\ has_tag (Joblyst.company j) = false /\
     has_tag (Joblyst.location j) = false /\ has_tag (Joblyst.description j) = false) /\
    (collapsed (Joblyst.title j) = true /\ collapsed (Joblyst.company j) = true /\
     collapsed (Joblyst.location j) = true /\ collapsed (Joblyst.description j) = true) /\
    (lower (Joblyst.title j) = Joblyst.title j /\
     lower (Joblyst.company j) = Joblyst.company j /\
     lower (Joblyst.location j) = Joblyst.location j /\
     lower (Joblyst.description j) = Joblyst.description j) /\
    Joblyst.applyLink j = applyLink.

(** "Final score = round((base + boosts) * 100), clamped to a maximum
    of 100". *)
Definition score_is_rounded (a : arith) (embedding : Type)
    (encode : string -> embedding) (cosine : embedding -> embedding -> num a)
    (job : Job) (cvEmbedding : embedding) (cvSkills : list string) : Prop :=
  scoreJobHybrid a embedding encode cosine job cvEmbedding cvSkills =
  documented_score a
    (semantic a embedding encode cosine job cvEmbedding)
    (computeKeywordScore a job cvSkills)
    (freshGradBoost a job) (roleBoost a job).

End Documented.

(** ** Concrete inputs *)

Module Samples.

Import PyStr PyTime History PyNum Joblyst Props.

Definition boundary_now : datetime := mkDatetime 2024 1 15 12 0 0 1.
Definition boundary_stamp : datetime := mkDatetime 2024 1 8 12 0 0 1.
Definition fresh_stamp : datetime := mkDatetime 2024 1 14 9 30 0 0.

(** One entry, stamped exactly seven days before [boundary_now]. *)
Definition boundary_world : World :=
  mkWorld (mkJobHistory 7 {[ "acme-dev" := isoformat boundary_stamp ]})
          FileAbsent [].

(** One entry ten days old and one a day old. *)
Definition mixed_world : World :=
  mkWorld (mkJobHistory 7
             (<[ "old-company-old-job" := "2024-01-05T12:00:00.000001" ]>
                {[ "company1-job1" := isoformat fresh_stamp ]}))
          FileAbsent [].

Definition empty_world : World :=
  mkWorld (mkJobHistory 7 ∅) FileAbsent [].

Definition senior_fresh_job : Job :=
  mkJob "senior developer" "Acme" "lahore"
        "fresh graduates are welcome to apply" "https://acme.example/jobs/1" None
        "acme-senior developer".

Definition junior_job : Job :=
  mkJob "junior python developer" "Acme" "lahore"
        "entry level role using python and react" "https://acme.example/jobs/2"
        None "acme-junior python developer".

Definition clerk_job : Job :=
  mkJob "data clerk" "Acme" "lahore" "python and java"
        "https://acme.example/jobs/3" None "acme-data clerk".

Definition plain_job : Job :=
  mkJob "accountant" "Acme" "lahore" "ledgers and invoices"
        "https://acme.example/jobs/4" None "acme-accountant".

Definition seven_skills : list string :=
  [ "python"; "java"; "rust"; "haskell"; "cobol"; "fortran"; "erlang" ].

Definition two_skills : list string := [ "python"; "react" ].

(** An embedding model under which every similarity is zero. *)
Definition text_encode (s : string) : string := s.
Definition zero_cosine (a : arith) (x y : string) : num a := of_int a 0.

Definition noon : oracle := mkOracle boundary_now SaveOk (PostReturns 204).
Definition noon_webhook_down : oracle := mkOracle boundary_now SaveOk PostRaises.
Definition always_noon (i : nat) : oracle := noon.

End Samples.

(** ** The rest of the history store *)

Module Stats.

Import PyStr PyTime History.

(** The dictionary that [get_stats] returns. *)
Record stats : Type := mkStats {
  total_jobs : nat;
  oldest_entry : option string;
  newest_entry : option string
}.

(** [min] and [max] over a non-empty list of [str], first element [x]:
    the running value is replaced only by a strictly smaller (greater)
    one. *)
Definition py_min (x : string) (l : list string) : string :=
  fold_left (fun m y => if lt y m then y else m) l x.

Definition py_max (x : string) (l : list string) : string :=
  fold_left (fun m y => if gt y m then y else m) l x.

(** [get_stats]; [timestamps] is taken in the order of the keys, which
    [min] and [max] do not depend on. *)
Definition get_stats (jh : JobHistory) : stats :=
  match (map_to_list (history jh)).*2 with
  | [] => mkStats 0 None None
  | t :: ts => mkStats (size (history jh)) (Some (py_min t ts)) (Some (py_max t ts))
  end.

End Stats.

(** ** What the scrapers do with the postings they find *)

Module Scrape.

Import PyStr Joblyst.

(** What is read off one LinkedIn card: the texts of the title, company
    and location elements (each [""] when the element is missing) and the
    link. *)
Record card : Type := mkCard {
  c_title : string;
  c_company : string;
  c_loc : string;
  c_link : string
}.

Definition nonempty (s : string) : bool :=
  match s with
  | EmptyString => false
  | String _ _ => true
  end.

(** [job["id"] not in [j["id"] for j in jobs]] *)
Definition id_in (job_id : string) (jobs : list Job) : bool :=
  existsb (String.eqb job_id) (map id jobs).

(** [if job and job["id"] not in [j["id"] for j in jobs]: jobs.append(job)] *)
Definition append_if_new (job : option Job) (jobs : list Job) : list Job :=
  match job with
  | Some j => if id_in (id j) jobs then jobs else (jobs ++ [j])%list
  | None => jobs
  end.

(** The body of the loop over the cards of [scrapeLinkedIn]. *)
Definition linkedin_card (jobs : list Job) (c : card) : list Job :=
  if nonempty (c_title c) && nonempty (c_company c)
  then
    let description :=
      c_title c ++ " position at " ++ c_company c ++ ". Location: " ++ c_loc c in
    append_if_new
      (normalizeJob (Some (c_title c)) (Some (c_company c)) (Some (c_loc c))
                    (Some description) (c_link c) None)
      jobs
  else jobs.

(** [jobs] after all the cards of all the responses, in the order they are
    visited. *)
Definition linkedin_collect (cards : list card) : list Job :=
  fold_left linkedin_card cards [].

(** The closing loop of [scrapeLinkedIn] over [jobs], with [seen_ids] and
    [unique_jobs]. *)
Fixpoint unique_pass (jobs : list Job) (seen_ids : gset string)
    (unique_jobs : list Job) : list Job :=
  match jobs with
  | [] => unique_jobs
  | job :: rest =>
      if decide (id job ∈ seen_ids)
      then unique_pass rest seen_ids unique_jobs
      else unique_pass rest ({[id job]} ∪ seen_ids) (unique_jobs ++ [job])%list
  end.

(** What [scrapeLinkedIn] returns for these cards. *)
Definition scrapeLinkedIn (cards : list card) : list Job :=
  unique_pass (linkedin_collect cards) ∅ [].

End Scrape.

(** ** The candidate's profile *)

Module CvProfile.

Import PyStr PyNum Joblyst.

(** One entry of [cv["skills"]["items"]]: the name when the key is
    present, the keywords when the key is present and holds a list. *)
Record skill_item : Type := mkSkillItem {
  s_name : option string;
  s_keywords : option (list string)
}.

(** [cv["skills"]]: a list, whose elements are strings ([Some]) or
    something else ([None]), or a dictionary with its ["items"] (none when
    the key is missing). *)
Inductive skills_doc : Type :=
| SkillsList (elems : list (option string))
| SkillsItems (items : list skill_item).

Definition item_skills (it : skill_item) : list string :=
  lower (match s_name it with Some n => n | None => EmptyString end)
  :: match s_keywords it with
     | Some ks => map lower ks
     | None => []
     end.

(** The preparation of [cvSkills]; [None] when [cv] has no ["skills"]. *)
Definition cvSkills_of (skills : option skills_doc) : list string :=
  match skills with
  | None => []
  | Some (SkillsList elems) =>
      map lower (flat_map (fun e => match e with Some s => [s] | None => [] end) elems)
  | Some (SkillsItems items) => flat_map item_skills items
  end.

(** [" ".join(str(p) for p in parts if p)] *)
Fixpoint join_parts (parts : list string) : string :=
  match parts with
  | [] => EmptyString
  | EmptyString :: rest => join_parts rest
  | p :: rest =>
      match join_parts rest with
      | EmptyString => p
      | r => p ++ " " ++ r
      end
  end.

(** [re.sub(r'\s+', ' ', s)]; [in_run] holds after a whitespace
    character. *)
Fixpoint collapse_ws (in_run : bool) (s : string) : string :=
  match s with
  | EmptyString => EmptyString
  | String c r =>
      if is_space c
      then (if in_run then collapse_ws true r else String " " (collapse_ws true r))
      else String c (collapse_ws false r)
  end.

(** The end of [extractCVText], from the list [parts] that the body has
    gathered from the document. *)
Definition extractCVText (parts : list string) : string :=
  let text := join_parts parts in
  let text := sub_tags false text in
  let text := strip (collapse_ws false text) in
  lower text.

End CvProfile.

(** ** More vocabulary *)

Module Props2.

Import PyStr PyTime History PyNum Joblyst Props Scrape.

(** [a <= b] on [str]. *)
Definition leq (a b : string) : bool := negb (String.ltb b a).

(** The text does not begin, and does not end, with a whitespace
    character. *)
Definition starts_clean (s : string) : bool :=
  match s with
  | EmptyString => true
  | String c _ => negb (is_space c)
  end.

Fixpoint ends_clean (s : string) : bool :=
  match s with
  | EmptyString => true
  | String c r =>
      match r with
      | EmptyString => negb (is_space c)
      | String _ _ => ends_clean r
      end
  end.

(** The history file holds what the store has in memory: a restart would
    load the same history. *)
Definition synced (w : World) : Prop :=
  load_history (disk w) = history (jobHistory w).

(** [len(text)] for a text that is [None] or a [str]; 0 for [None]. *)
Definition text_length (v : option string) : nat :=
  match v with
  | Some s => String.length s
  | None => 0
  end.

(** Every whitespace character of the text is a plain space. *)
Fixpoint plain_spaces (s : string) : bool :=
  match s with
  | EmptyString => true
  | String c r => (negb (is_space c) || is_char " " c) && plain_spaces r
  end.

(** What one LinkedIn card contributes: the normalized posting, when the
    card has a title and a company. *)
Definition card_job (c : card) : option Job :=
  if nonempty (c_title c) && nonempty (c_company c)
  then normalizeJob (Some (c_title c)) (Some (c_company c)) (Some (c_loc c))
         (Some (c_title c ++ " position at " ++ c_company c
                ++ ". Location: " ++ c_loc c))
         (c_link c) None
  else None.

(** The accumulation that both scrapers use, over the results of
    [normalizeJob] in the order they are produced, starting from [jobs]. *)
Definition collect_from (found : list (option Job)) (jobs : list Job) : list Job :=
  fold_left (fun jobs job => append_if_new job jobs) found jobs.

(** A ["<"] occurs in the text. *)
Fixpoint has_lt (s : string) : bool :=
  match s with
  | EmptyString => false
  | String c r => is_char "<" c || has_lt r
  end.

Section Globals.

Variable allowedRoles : list string.
Variable allowedLocations : list string.
Variable minScore : Z.
Variable a : arith.
Variable embedding : Type.
Variable encode : string -> embedding.
Variable cosine : embedding -> embedding -> num a.
Variable cvEmbedding : embedding.
Variable cvSkills : list string.

(** The four filters of the loop of [runJoblyst], in its order. *)
Definition passes (job : Job) : bool :=
  roleFilter allowedRoles job && locationFilter allowedLocations job
  && experienceFilter job && skillsExclusionFilter job.

(** The job would reach [sendToDiscord]. *)
Definition qualifies (job : Job) : bool :=
  passes job
  && (minScore <=? scoreJobHybrid a embedding encode cosine job cvEmbedding cvSkills)%Z.

(** What a loop adds to the trace: for each job that reaches the scorer,
    the call of the scorer, followed, when the job qualifies, by the write
    of a history that holds its id and by the post of its payload. *)
Inductive blocks : list event -> Prop :=
| blocks_nil : blocks []
| blocks_scored job rest :
    passes job = true -> qualifies job = false ->
    blocks rest -> blocks (EvScore job :: rest)
| blocks_posted job h so po rest :
    qualifies job = true ->
    is_Some (h !! id job) ->
    blocks rest ->
    blocks (EvScore job :: EvSave h so
            :: EvPost (make_payload job
                         (scoreJobHybrid a embedding encode cosine job cvEmbedding
                            cvSkills)) po
            :: rest).

End Globals.

End Props2.

Module Samples2.

Import PyStr PyTime History PyNum Joblyst Props Scrape CvProfile.

Definition card_a : card :=
  mkCard "Junior Python Developer" "Acme" "Lahore" "https://acme.example/jobs/2".
Definition card_b : card :=
  mkCard "junior python developer" "ACME" "Karachi" "https://acme.example/jobs/9".
Definition card_c : card :=
  mkCard "React Intern" "Globex" "" "https://globex.example/jobs/1".

Definition two_entry_history : JobHistory :=
  mkJobHistory 7
    (<[ "old-company-old-job" := "2024-01-05T12:00:00.000001" ]>
       {[ "company1-job1" := "2024-01-14T09:30:00" ]}).

Definition synced_world : World :=
  mkWorld two_entry_history (FileJson (history two_entry_history)) [].

End Samples2.

(** * Properties *)

(** ** Order of ISO-8601 texts *)

Section IsoOrder.

Import PyStr PyTime Props.
Local Open Scope string_scope.
Local Open Scope Z_scope.

Lemma lex_Eq_r c : lex c Eq = c.
Proof. by destruct c. Qed.

Lemma string_compare_refl s : String.compare s s = Eq.
Proof.
  induction s as [|c s IH]; [done|].
  simpl. assert (H : Ascii.compare c c = Eq) by apply N.compare_refl.
  by rewrite H.
Qed.

Lemma compare_cons_same c x y :
  String.compare (String c x) (String c y) = String.compare x y.
Proof.
  simpl. assert (H : Ascii.compare c c = Eq) by apply N.compare_refl.
  by rewrite H.
Qed.

Lemma str_app_cons c s x : String c s ++ x = String c (s ++ x).
Proof. reflexivity. Qed.

Lemma str_app_nil_l x : "" ++ x = x.
Proof. reflexivity. Qed.

Lemma digit_code n : N_of_ascii (digit n) = Z.to_N (48 + n mod 10).
Proof.
  unfold digit.
  assert (0 <= n mod 10 < 10) by (apply Z.mod_pos_bound; lia).
  unfold ascii_of_nat. rewrite N_ascii_embedding; lia.
Qed.

Lemma compare_digit a b :
  Ascii.compare (digit a) (digit b) = (a mod 10 ?= b mod 10).
Proof.
  unfold Ascii.compare. rewrite !digit_code.
  assert (0 <= a mod 10 < 10) by (apply Z.mod_pos_bound; lia).
  assert (0 <= b mod 10 < 10) by (apply Z.mod_pos_bound; lia).
  rewrite Z2N.inj_compare by lia.
  apply Z.add_compare_mono_l.
Qed.

Lemma mod_pow_succ a k :
  0 <= a ->
  a mod 10 ^ Z.of_nat (S k) =
  ((a / 10 ^ Z.of_nat k) mod 10) * 10 ^ Z.of_nat k + a mod 10 ^ Z.of_nat k.
Proof.
  intros Ha.
  rewrite Nat2Z.inj_succ, Z.pow_succ_r by lia.
  assert (Hp : 0 < 10 ^ Z.of_nat k) by (apply Z.pow_pos_nonneg; lia).
  rewrite (Z.mul_comm 10), Z.rem_mul_r by lia. lia.
Qed.

Lemma compare_pad w : forall a b x y,
  0 <= a -> 0 <= b ->
  String.compare (pad w a ++ x) (pad w b ++ y) =
  lex (a mod 10 ^ Z.of_nat w ?= b mod 10 ^ Z.of_nat w) (String.compare x y).
Proof.
  induction w as [|k IH]; intros a b x y Ha Hb.
  - cbn [pad]. rewrite !str_app_nil_l. simpl. by rewrite !Z.mod_1_r.
  - cbn [pad]. rewrite !str_app_cons. cbn [String.compare].
    rewrite compare_digit, IH by assumption.
    rewrite (mod_pow_succ a), (mod_pow_succ b) by assumption.
    assert (Hp : 0 < 10 ^ Z.of_nat k) by (apply Z.pow_pos_nonneg; lia).
    set (p := 10 ^ Z.of_nat k) in *.
    assert (0 <= a mod p < p) by (apply Z.mod_pos_bound; lia).
    assert (0 <= b mod p < p) by (apply Z.mod_pos_bound; lia).
    assert (0 <= (a / p) mod 10 < 10) by (apply Z.mod_pos_bound; lia).
    assert (0 <= (b / p) mod 10 < 10) by (apply Z.mod_pos_bound; lia).
    generalize dependent ((a / p) mod 10). generalize dependent ((b / p) mod 10).
    generalize dependent (a mod p). generalize dependent (b mod p).
    intros rb Hrb ra Hra db Hdb da Hda.
    destruct (Z.compare_spec da db) as [E|L|G]; cbn [lex].
    + subst db. by rewrite Z.add_compare_mono_l.
    + assert (E : (da * p + ra ?= db * p + rb) = Lt) by (apply Z.compare_lt_iff; nia).
      by rewrite E.
    + assert (E : (da * p + ra ?= db * p + rb) = Gt) by (apply Z.compare_gt_iff; nia).
      by rewrite E.
Qed.

Lemma str_app_nil_r s : s ++ "" = s.
Proof. induction s as [|c s IH]; [done|]. by rewrite str_app_cons, IH. Qed.

Lemma mod_small_pow w a : 0 <= a < 10 ^ Z.of_nat w -> a mod 10 ^ Z.of_nat w = a.
Proof. intros; by apply Z.mod_small. Qed.

Lemma compare_pad_small w a b x y :
  0 <= a < 10 ^ Z.of_nat w -> 0 <= b < 10 ^ Z.of_nat w ->
  String.compare (pad w a ++ x) (pad w b ++ y) = lex (a ?= b) (String.compare x y).
Proof.
  intros Ha Hb. rewrite compare_pad by lia.
  by rewrite !mod_small_pow.
Qed.

Lemma compare_sep c x y :
  String.compare (String c "" ++ x) (String c "" ++ y) = String.compare x y.
Proof. rewrite !str_app_cons, !str_app_nil_l. apply compare_cons_same. Qed.

Lemma compare_fraction a b :
  0 <= a < 1000000 -> 0 <= b < 1000000 ->
  String.compare (if a =? 0 then "" else "." ++ pad 6 a)
                 (if b =? 0 then "" else "." ++ pad 6 b) = (a ?= b).
Proof.
  intros Ha Hb.
  destruct (Z.eqb_spec a 0) as [->|Na], (Z.eqb_spec b 0) as [->|Nb].
  - reflexivity.
  - rewrite str_app_cons. cbn [String.compare]. symmetry. apply Z.compare_lt_iff. lia.
  - rewrite str_app_cons. cbn [String.compare]. symmetry. apply Z.compare_gt_iff. lia.
  - rewrite <- (str_app_nil_r (pad 6 a)), <- (str_app_nil_r (pad 6 b)).
    rewrite compare_sep, compare_pad_small by (simpl; lia).
    apply lex_Eq_r.
Qed.

Theorem compare_isoformat a b :
  wf_datetime a -> wf_datetime b ->
  String.compare (isoformat a) (isoformat b) = dt_compare a b.
Proof.
  intros (Hy & Hm & Hd & Hh & Hmi & Hs & Hu) (Hy' & Hm' & Hd' & Hh' & Hmi' & Hs' & Hu').
  unfold isoformat, dt_compare.
  repeat (rewrite compare_pad_small by (simpl; lia); f_equal; rewrite ?compare_sep).
  by apply compare_fraction.
Qed.

Lemma gt_isoformat a b :
  wf_datetime a -> wf_datetime b ->
  PyStr.gt (isoformat a) (isoformat b) = true <-> dt_lt b a.
Proof.
  intros Ha Hb. unfold PyStr.gt, String.ltb, dt_lt.
  rewrite compare_isoformat by assumption.
  destruct (dt_compare b a); split; congruence.
Qed.

End IsoOrder.

(** ** Date arithmetic stays in range *)

Section DateRange.

Import PyStr PyTime Props.
Local Open Scope Z_scope.

Lemma month_day_table :
  forallb (month_day_ok true) (seq 0 365) && forallb (month_day_ok false) (seq 0 365) = true.
Proof. vm_compute. reflexivity. Qed.

Lemma month_day_bounds n leapyear :
  0 <= n < 365 ->
  1 <= (month_day n leapyear).1 <= 12 /\ 1 <= (month_day n leapyear).2 <= 31.
Proof.
  intros Hn.
  pose proof month_day_table as H. apply andb_prop in H as [Ht Hf].
  assert (Hin : In (Z.to_nat n) (seq 0 365)) by (apply in_seq; lia).
  assert (Hok : month_day_ok leapyear (Z.to_nat n) = true).
  { destruct leapyear; [apply (proj1 (forallb_forall _ _) Ht) | apply (proj1 (forallb_forall _ _) Hf)]; exact Hin. }
  unfold month_day_ok in Hok. rewrite Z2Nat.id in Hok by lia.
  destruct (month_day n leapyear) as [m d]. simpl. lia.
Qed.

Lemma ord2ymd_month_day o :
  let n := o - 1 in
  let n400 := n / DI400Y in
  let n := n mod DI400Y in
  let n100 := n / DI100Y in
  let n := n mod DI100Y in
  let n4 := n / DI4Y in
  let n := n mod DI4Y in
  let n1 := n / 365 in
  let n := n mod 365 in
  let y := n400 * 400 + 1 + n100 * 100 + n4 * 4 + n1 in
  ord2ymd o =
  if (n1 =? 4) || (n100 =? 4) then (y - 1, 12, 31)
  else
    let md := month_day n ((n1 =? 3) && (negb (n4 =? 24) || (n100 =? 3))) in
    (y, md.1, md.2).
Proof.
  cbv zeta. unfold ord2ymd, month_day. cbv zeta.
  destruct (_ || _); [done|].
  by destruct (_ <? _).
Qed.

Lemma ord2ymd_wf o :
  1 <= o <= MAXORDINAL ->
  1 <= (ord2ymd o).1.1 <= 9999 /\ 1 <= (ord2ymd o).1.2 <= 12 /\ 1 <= (ord2ymd o).2 <= 31.
Proof.
  intros Ho. rewrite ord2ymd_month_day. cbv zeta.
  unfold MAXORDINAL, DI400Y, DI100Y, DI4Y in *.
  destruct (_ || _) eqn:Hsp.
  - simpl. apply orb_prop in Hsp.
    split; [|lia].
    destruct Hsp as [H|H]; apply Z.eqb_eq in H; Z.div_mod_to_equations; lia.
  - apply orb_false_elim in Hsp as [H1 H2].
    apply Z.eqb_neq in H1, H2.
    match goal with |- context [month_day ?n ?l] =>
      pose proof (month_day_bounds n l) as Hmd end.
    cbn [fst snd].
    split; [|apply Hmd]; Z.div_mod_to_equations; lia.
Qed.

Lemma sub_days_wf d n c :
  wf_datetime d -> sub_days d n = Some c -> wf_datetime c.
Proof.
  intros (Hy & Hm & Hd & Hrest) H. unfold sub_days in H.
  destruct (_ <? _); [done|].
  destruct (_ && _) eqn:Hr; [|done].
  apply andb_prop in Hr as [H0 H1]. apply Z.ltb_lt in H0. apply Z.leb_le in H1.
  assert (Hw := ord2ymd_wf (ymd2ord (year d) (month d) (day d) - n) ltac:(lia)).
  destruct (ord2ymd _) as [[y m] dd]. inversion H; subst c.
  unfold wf_datetime; simpl in *. tauto.
Qed.

End DateRange.
(** ** The history store *)

Section Store.

Import PyStr PyTime History Joblyst Props.
Local Open Scope string_scope.

Lemma is_sent_true job_id jh :
  is_sent job_id jh = true <-> exists ts, history jh !! job_id = Some ts.
Proof.
  unfold is_sent. rewrite bool_decide_eq_true. reflexivity.
Qed.

Lemma is_sent_false job_id jh :
  is_sent job_id jh = false <-> history jh !! job_id = None.
Proof.
  unfold is_sent. rewrite bool_decide_eq_false, <- eq_None_not_Some. reflexivity.
Qed.

Lemma keep_newer_lookup cutoff h job_id ts :
  keep_newer cutoff h !! job_id = Some ts <->
  h !! job_id = Some ts /\ gt ts cutoff = true.
Proof.
  unfold keep_newer. rewrite map_lookup_filter_Some. simpl.
  rewrite Is_true_true. reflexivity.
Qed.




Lemma cleanup_history now so w cutoff :
  sub_days now (retention_days (jobHistory w)) = Some cutoff ->
  exists w',
    cleanup_old_entries now so w =
      Some ((size (history (jobHistory w))
             - size (keep_newer (isoformat cutoff) (history (jobHistory w))))%nat, w') /\
    jobHistory w' =
      mkJobHistory (retention_days (jobHistory w))
                   (keep_newer (isoformat cutoff) (history (jobHistory w))) /\
    (size (keep_newer (isoformat cutoff) (history (jobHistory w)))
       = size (history (jobHistory w)) ->
     w' = mkWorld (jobHistory w') (disk w) (trace w)).
Proof.
  intros Hc. unfold cleanup_old_entries. rewrite Hc. cbn [jobHistory history].
  destruct (0 <? _)%nat eqn:Hr; eexists; (split; [reflexivity|]);
    (split; [reflexivity|]); cbn [jobHistory history].
  - apply Nat.ltb_lt in Hr. intros E. lia.
  - intros _. reflexivity.
Qed.

Lemma world_eta w : mkWorld (jobHistory w) (disk w) (trace w) = w.
Proof. by destruct w. Qed.

Lemma jobHistory_eta jh : mkJobHistory (retention_days jh) (history jh) = jh.
Proof. by destruct jh. Qed.







End Store.
(** ** Characters and tags *)

Section Tags.

Import PyStr PyTime History Joblyst Props.
Local Open Scope string_scope.

Lemma lower_char_idem c : lower_char (lower_char c) = lower_char c.
Proof. destruct c as [[] [] [] [] [] [] [] []]; reflexivity. Qed.

Lemma lower_idem s : lower (lower s) = lower s.
Proof.
  induction s as [|c s IH]; [done|].
  cbn [lower]. by rewrite lower_char_idem, IH.
Qed.

Lemma lower_char_angle c :
  is_char "<" (lower_char c) = is_char "<" c /\
  is_char ">" (lower_char c) = is_char ">" c.
Proof. destruct c as [[] [] [] [] [] [] [] []]; split; reflexivity. Qed.

Lemma has_gt_lower s : has_gt (lower s) = has_gt s.
Proof.
  induction s as [|c s IH]; [done|].
  cbn [lower has_gt]. by rewrite IH, (proj2 (lower_char_angle c)).
Qed.

Lemma opens_tag_lower s : opens_tag (lower s) = opens_tag s.
Proof.
  destruct s as [|c s]; [done|].
  cbn [lower opens_tag]. by rewrite has_gt_lower, (proj2 (lower_char_angle c)).
Qed.

Lemma has_tag_lower s : has_tag (lower s) = has_tag s.
Proof.
  induction s as [|c s IH]; [done|].
  cbn [has_tag]. rewrite <- IH, <- (opens_tag_lower s).
  cbn [lower has_tag]. by rewrite (proj1 (lower_char_angle c)).
Qed.

Lemma is_char_true a c : is_char a c = true <-> a = c.
Proof. unfold is_char. destruct (ascii_dec a c); split; congruence. Qed.

(** A [">"] in the output of the scan was a [">"] of its input. *)
Lemma has_gt_sub_tags s : forall inside,
  has_gt (sub_tags inside s) = true -> has_gt s = true.
Proof.
  induction s as [|c s IH]; intros inside H; [by destruct inside|].
  cbn [sub_tags has_gt] in *.
  destruct inside.
  - destruct (is_char ">" c); [done|]. cbn. eauto.
  - destruct (is_char "<" c && opens_tag s).
    + cbn [has_gt] in H. apply orb_prop in H as [H|H]; [done|].
      apply IH in H. rewrite H. apply orb_true_r.
    + cbn [has_gt] in H. apply orb_prop in H as [H|H].
      * by rewrite H.
      * apply IH in H. rewrite H. apply orb_true_r.
Qed.

Lemma opens_tag_sub_tags s :
  opens_tag (sub_tags false s) = true -> opens_tag s = true.
Proof.
  destruct s as [|c s]; [done|].
  cbn [sub_tags]. destruct (is_char "<" c && opens_tag s) eqn:E.
  - apply andb_prop in E as [Ec _]. apply is_char_true in Ec as <-.
    cbn [opens_tag]. intros H. apply andb_prop in H as [_ H].
    apply has_gt_sub_tags in H. by rewrite H.
  - cbn [opens_tag]. intros H. apply andb_prop in H as [Hc H].
    apply has_gt_sub_tags in H. by rewrite Hc, H.
Qed.

(** No tag is left after the substitution. *)
Lemma has_tag_sub_tags s : forall inside, has_tag (sub_tags inside s) = false.
Proof.
  induction s as [|c s IH]; intros inside; [by destruct inside|].
  cbn [sub_tags]. destruct inside.
  - by destruct (is_char ">" c).
  - destruct (is_char "<" c && opens_tag s) eqn:E.
    + cbn [has_tag]. by rewrite IH.
    + cbn [has_tag]. rewrite IH, orb_false_r.
      destruct (is_char "<" c) eqn:Ec; [|done]. cbn in E |- *.
      destruct (opens_tag (sub_tags false s)) eqn:Eo; [|done].
      apply opens_tag_sub_tags in Eo. congruence.
Qed.

Lemma has_tag_lstrip s : has_tag s = false -> has_tag (lstrip s) = false.
Proof.
  induction s as [|c s IH]; [done|].
  intros H. cbn [lstrip]. destruct (is_space c); [|done].
  apply IH. cbn [has_tag] in H. by apply orb_false_elim in H as [_ H].
Qed.

Lemma rstrip_cons c s :
  rstrip (String c s) =
  match rstrip s with
  | EmptyString => if is_space c then EmptyString else String c EmptyString
  | String d r => String c (String d r)
  end.
Proof. cbn [rstrip]. by destruct (rstrip s). Qed.

Lemma has_gt_rstrip s : has_gt (rstrip s) = true -> has_gt s = true.
Proof.
  induction s as [|c s IH]; [done|].
  rewrite rstrip_cons. cbn [has_gt].
  destruct (rstrip s) as [|d r] eqn:E.
  - destruct (is_space c); [done|]. cbn [has_gt].
    rewrite orb_false_r. by intros ->.
  - cbn [has_gt] in *. intros H. apply orb_prop in H as [H|H].
    + by rewrite H.
    + rewrite IH by exact H. apply orb_true_r.
Qed.

Lemma opens_tag_rstrip s : opens_tag (rstrip s) = true -> opens_tag s = true.
Proof.
  destruct s as [|c s]; [done|].
  rewrite rstrip_cons. destruct (rstrip s) as [|d r] eqn:E.
  - destruct (is_space c); [done|]. cbn. by rewrite andb_false_r.
  - rewrite <- E. cbn [opens_tag]. intros H. apply andb_prop in H as [Hc H].
    apply has_gt_rstrip in H. by rewrite Hc, H.
Qed.

Lemma has_tag_rstrip s : has_tag s = false -> has_tag (rstrip s) = false.
Proof.
  induction s as [|c s IH]; [done|].
  cbn [has_tag]. intros H. apply orb_false_elim in H as [Hc Hs].
  rewrite rstrip_cons. destruct (rstrip s) as [|d r] eqn:E.
  - destruct (is_space c); [done|]. cbn. by rewrite andb_false_r.
  - specialize (IH Hs). rewrite <- E in IH |- *.
    cbn [has_tag]. rewrite IH, orb_false_r.
    destruct (is_char "<" c); [|done]. cbn in Hc |- *.
    destruct (opens_tag (rstrip s)) eqn:Eo; [|done].
    apply opens_tag_rstrip in Eo. congruence.
Qed.

Lemma has_tag_strip s : has_tag s = false -> has_tag (strip s) = false.
Proof. intros H. by apply has_tag_rstrip, has_tag_lstrip. Qed.

Lemma has_tag_cleanHtml text : has_tag (cleanHtml text) = false.
Proof.
  destruct text as [[|c r]|]; [done| |done].
  apply has_tag_strip, has_tag_sub_tags.
Qed.

End Tags.
(** ** The normalizer *)

Section Normalizer.

Import PyStr PyTime History Joblyst Props.
Local Open Scope string_scope.

Lemma truthy_trimmed v : trimmed v <> "" -> truthy v = true.
Proof. destruct v as [[|c r]|]; cbn; congruence. Qed.

Lemma normalizeJob_Some t c l d a e j :
  normalizeJob t c l d a e = Some j ->
  truthy t = true /\ truthy c = true /\
  j = {| title := lower (strip (cleanHtml t));
         company := strip (cleanHtml c);
         location := lower (if truthy l then strip (cleanHtml l) else "pakistan");
         description := lower (strip (cleanHtml d));
         applyLink := a;
         email := e;
         id := slice_to 30 (lower (strip (cleanHtml c))) ++ "-"
               ++ slice_to 40 (lower (strip (cleanHtml t))) |}.
Proof.
  unfold normalizeJob.
  destruct (truthy t); [|done]. destruct (truthy c); [|done]. cbn [negb orb].
  by intros [= <-].
Qed.

(** C5 (as stated) fails: a title of three spaces is empty after trimming,
    yet the posting is accepted, with an empty title. *)
Lemma normalizeJob_accepts_blank_title :
  ~ Documented.rejects_blank (Some "   ") (Some "Acme") None None
      "https://acme.example/jobs/1" None.
Proof.
  unfold Documented.rejects_blank. intros [_ H].
  assert (E : trimmed (Some "   ") = "") by reflexivity.
  specialize (H (or_introl E)). vm_compute in H. discriminate H.
Qed.

(** C5 (as amended): [normalizeJob] returns [None] exactly when the title
    or the company it is given is [None] or the empty string, before any
    cleaning or trimming; so for every input whose trimmed title and
    trimmed company are not empty it returns a [Job]. *)
Theorem normalizeJob_rejection (t c l d : option string) (a : string)
    (e : option string) :
  (normalizeJob t c l d a e = None <-> truthy t = false \/ truthy c = false) /\
  (trimmed t <> "" -> trimmed c <> "" ->
   exists j, normalizeJob t c l d a e = Some j).
Proof.
  split.
  - unfold normalizeJob.
    destruct (truthy t), (truthy c); cbn [negb orb]; split; intros H;
      try done; try tauto; destruct H; discriminate.
  - intros Ht Hc. unfold normalizeJob.
    rewrite (truthy_trimmed _ Ht), (truthy_trimmed _ Hc). cbn [negb orb]. eauto.
Qed.

Lemma normalizeJob_rejection_witness :
  exists j, normalizeJob (Some " Junior <b>Python</b> Developer ") (Some "Acme")
              None (Some "entry level") "https://acme.example/jobs/2" None = Some j.
Proof.
  apply (proj2 (normalizeJob_rejection
                  (Some " Junior <b>Python</b> Developer ") (Some "Acme")
                  None (Some "entry level") "https://acme.example/jobs/2" None));
    vm_compute; discriminate.
Defined.

(** C6: the id of a normalized job is the lower-cased company cut to 30
    characters, a hyphen, and the lower-cased title cut to 40 characters;
    it is a function of the input; and two normalized postings that agree
    on those two prefixes have the same id, whatever else differs. *)
Theorem fingerprint_identity (t c l d : option string) (a : string)
    (e : option string) (j : Job) :
  normalizeJob t c l d a e = Some j ->
  id j = slice_to 30 (lower (company j)) ++ "-" ++ slice_to 40 (lower (title j)) /\
  (forall j0, normalizeJob t c l d a e = Some j0 -> id j0 = id j) /\
  (forall t' c' l' d' a' e' j',
      normalizeJob t' c' l' d' a' e' = Some j' ->
      slice_to 30 (lower (company j')) = slice_to 30 (lower (company j)) ->
      slice_to 40 (lower (title j')) = slice_to 40 (lower (title j)) ->
      id j' = id j).
Proof.
  intros H.
  assert (Hid : forall t c l d a e j, normalizeJob t c l d a e = Some j ->
            id j = slice_to 30 (lower (company j)) ++ "-"
                   ++ slice_to 40 (lower (title j))).
  { clear. intros t c l d a e j H.
    apply normalizeJob_Some in H as (_ & _ & ->). cbn [id company title].
    by rewrite lower_idem. }
  split; [eauto|]. split.
  - intros j0 H0. congruence.
  - intros t' c' l' d' a' e' j' H' Ec Et.
    rewrite (Hid _ _ _ _ _ _ _ H), (Hid _ _ _ _ _ _ _ H'). by rewrite Ec, Et.
Qed.

Lemma fingerprint_identity_witness :
  id (mkJob "junior python developer" "Acme Corp" "pakistan" "entry level"
            "https://acme.example/jobs/2" None
            "acme corp-junior python developer")
  = "acme corp-junior python developer".
Proof.
  apply (fingerprint_identity
           (Some "Junior Python Developer") (Some "Acme Corp") None
           (Some "Entry level") "https://acme.example/jobs/2" None).
  vm_compute. reflexivity.
Defined.

(** C8 (as stated) fails: the company keeps its capitals and the two
    spaces inside the title are kept. *)
Lemma normalizeJob_keeps_case_and_spaces :
  ~ Documented.fields_normalized (Some "Python  Developer") (Some "Acme") None
      (Some "Entry level") "https://acme.example/jobs/2" None.
Proof.
  unfold Documented.fields_normalized. intros H.
  specialize (H _ eq_refl). vm_compute in H.
  destruct H as (_ & (Hc & _) & _). discriminate Hc.
Qed.

(** C8 (as amended): for every accepted input [normalizeJob] replaces each
    HTML tag of the title, company, location and description by a space
    and trims the result, so that no tag is left in them; it lower-cases
    title, location and description, keeps the case of company, leaves
    internal whitespace as it is, and passes [applyLink] through
    unmodified. *)
Theorem normalizeJob_fields (t c l d : option string) (a : string)
    (e : option string) (j : Job) :
  normalizeJob t c l d a e = Some j ->
  (title j = lower (strip (cleanHtml t)) /\
   company j = strip (cleanHtml c) /\
   location j = (if truthy l then lower (strip (cleanHtml l)) else "pakistan") /\
   description j = lower (strip (cleanHtml d))) /\
  (has_tag (title j) = false /\ has_tag (company j) = false /\
   has_tag (location j) = false /\ has_tag (description j) = false) /\
  (lower (title j) = title j /\ lower (location j) = location j /\
   lower (description j) = description j) /\
  applyLink j = a.
Proof.
  intros H. apply normalizeJob_Some in H as (_ & _ & ->).
  cbn [title company location description applyLink].
  assert (Hl : (if truthy l then lower (strip (cleanHtml l)) else "pakistan")
               = lower (if truthy l then strip (cleanHtml l) else "pakistan"))
    by (by destruct (truthy l)).
  rewrite <- Hl.
  repeat split; rewrite ?lower_idem, ?has_tag_lower;
    try reflexivity; try (apply has_tag_strip, has_tag_cleanHtml).
  all: destruct (truthy l); rewrite ?lower_idem, ?has_tag_lower;
    try reflexivity; apply has_tag_strip, has_tag_cleanHtml.
Qed.

Lemma normalizeJob_fields_witness :
  has_tag "Python  <i>Developer</i>" = true /\
  has_tag (title (mkJob "python   developer" "Acme" "pakistan" "entry level"
                        "https://acme.example/jobs/2" None
                        "acme-python   developer")) = false.
Proof.
  split; [reflexivity|].
  apply (normalizeJob_fields
           (Some "Python  <i>Developer</i>") (Some "<b>Acme</b>") None
           (Some "Entry level") "https://acme.example/jobs/2" None).
  vm_compute. reflexivity.
Defined.

End Normalizer.
(** ** Signs in binary64 *)

Section Binary64Signs.

Import PyStr PyTime History PyNum Joblyst Props.
















End Binary64Signs.
(** ** The experience filter *)

Section Filters.

Import PyStr PyTime History PyNum Joblyst Props.
Local Open Scope string_scope.

Lemma reject_scan_In patterns text p :
  In p patterns -> contains p text = true -> reject_scan patterns text = true.
Proof.
  induction patterns as [|q ps IH]; intros Hin Hp; [done|].
  cbn [reject_scan]. destruct Hin as [->|Hin].
  - by rewrite Hp.
  - destruct (contains q text); [done|]. by apply IH.
Qed.

(** C2: a job whose title and description, joined by a space, contain any
    of the exclusion markers is rejected by [experienceFilter], whatever
    else the text contains (a fresh-graduate marker included). *)
Theorem experienceFilter_disqualifiers (job : Job) (p : string) :
  In p rejectPatterns ->
  contains p (combined (title job) (description job)) = true ->
  experienceFilter job = false.
Proof.
  intros Hin Hp. unfold experienceFilter.
  by rewrite (reject_scan_In _ _ _ Hin Hp).
Qed.

Lemma experienceFilter_disqualifiers_witness :
  any_in freshPatterns
    (combined (title Samples.senior_fresh_job) (description Samples.senior_fresh_job))
    = true /\
  experienceFilter Samples.senior_fresh_job = false.
Proof.
  split; [reflexivity|].
  apply (experienceFilter_disqualifiers Samples.senior_fresh_job "senior");
    [cbn; tauto | reflexivity].
Defined.

End Filters.

(** ** The scorer *)

Section Scorer.

Import PyStr PyTime History PyNum Joblyst Props.
Local Open Scope Q_scope.





















End Scorer.
(** ** The score *)

Section Score.

Import PyStr PyTime History PyNum Joblyst Props.
Local Open Scope Q_scope.


Lemma scoreJobHybrid_truncates_exact :
  ~ Documented.score_is_rounded exact string Samples.text_encode
      (Samples.zero_cosine exact) Samples.clerk_job "" Samples.seven_skills.
Proof.
  unfold Documented.score_is_rounded. vm_compute. discriminate.
Qed.







End Score.
(** ** Dispatch *)

Section Dispatch.

Import PyStr PyTime History PyNum Joblyst Props.
Local Open Scope string_scope.

Lemma mark_as_sent_history now so job_id w :
  jobHistory (mark_as_sent now so job_id w) =
  mkJobHistory (retention_days (jobHistory w))
               (<[job_id := isoformat now]> (history (jobHistory w))).
Proof. reflexivity. Qed.

Lemma mark_as_sent_is_sent now so job_id w :
  is_sent job_id (jobHistory (mark_as_sent now so job_id w)) = true.
Proof.
  apply is_sent_true. rewrite mark_as_sent_history. cbn [history].
  eexists. apply lookup_insert_eq.
Qed.

Lemma sendToDiscord_sent o job score w :
  is_sent (id job) (jobHistory w) = true -> sendToDiscord o job score w = w.
Proof. intros H. unfold sendToDiscord. by rewrite H. Qed.

Lemma sendToDiscord_fresh o job score w :
  is_sent (id job) (jobHistory w) = false ->
  sendToDiscord o job score w =
  let h' := <[id job := isoformat (o_now o)]> (history (jobHistory w)) in
  {| jobHistory := mkJobHistory (retention_days (jobHistory w)) h';
     disk := save_history (o_save o)
               (mkJobHistory (retention_days (jobHistory w)) h') (disk w);
     trace := ((trace w ++ [EvSave h' (o_save o)])
               ++ [EvPost (make_payload job score) (o_post o)])%list |}.
Proof. intros H. unfold sendToDiscord. by rewrite H. Qed.

(** C10: on a job not yet sent, [sendToDiscord] first puts the id in the
    history and writes the history file, and only then posts to the
    webhook; whatever the post does (a response or an exception) the
    history holds the id afterwards, the history and the file are the same
    as for any other outcome of the post, a successful write leaves the id
    in the file, and a second call for the same job does nothing.  On a job
    already sent it changes nothing: no write, no post. *)
Theorem sendToDiscord_records_first (o : oracle) (job : Job) (score : Z)
    (w : World) :
  (is_sent (id job) (jobHistory w) = false ->
   let w' := sendToDiscord o job score w in
   let h' := <[id job := isoformat (o_now o)]> (history (jobHistory w)) in
   history (jobHistory w') = h' /\
   is_sent (id job) (jobHistory w') = true /\
   trace w' = (trace w ++ [EvSave h' (o_save o);
                           EvPost (make_payload job score) (o_post o)])%list /\
   (o_save o = SaveOk -> disk w' = FileJson h' /\
                         is_sent (id job) (init (disk w') 7) = true) /\
   (forall po,
       let w'' := sendToDiscord (mkOracle (o_now o) (o_save o) po) job score w in
       jobHistory w'' = jobHistory w' /\ disk w'' = disk w') /\
   (forall o2 score2, sendToDiscord o2 job score2 w' = w')) /\
  (is_sent (id job) (jobHistory w) = true ->
   sendToDiscord o job score w = w).
Proof.
  split; [|apply sendToDiscord_sent].
  intros Hns. cbv zeta. rewrite sendToDiscord_fresh by exact Hns. cbv zeta.
  cbn [jobHistory history disk trace].
  assert (Hs : is_sent (id job)
                 (mkJobHistory (retention_days (jobHistory w))
                    (<[id job := isoformat (o_now o)]> (history (jobHistory w))))
               = true).
  { apply is_sent_true. cbn [history]. eexists. apply lookup_insert_eq. }
  split; [reflexivity|]. split; [exact Hs|]. split.
  { by rewrite <- app_assoc. }
  split.
  { intros ->. cbn [save_history history]. split; [reflexivity|].
    apply is_sent_true. cbn. eexists. apply lookup_insert_eq. }
  split.
  { intros po. rewrite sendToDiscord_fresh by exact Hns. by cbn. }
  intros o2 score2. apply sendToDiscord_sent. exact Hs.
Qed.

Lemma sendToDiscord_records_first_witness :
  is_sent (id Samples.junior_job)
    (jobHistory (sendToDiscord Samples.noon_webhook_down Samples.junior_job 65
                   Samples.empty_world)) = true.
Proof.
  destruct (sendToDiscord_records_first Samples.noon_webhook_down
              Samples.junior_job 65 Samples.empty_world) as [Hfresh _].
  assert (Hns : is_sent (id Samples.junior_job) (jobHistory Samples.empty_world)
                = false) by (vm_compute; reflexivity).
  destruct (Hfresh Hns) as (_ & Hs & _). exact Hs.
Defined.

End Dispatch.
(** ** Idempotent delivery *)

Section Delivery.

Import PyStr PyTime History PyNum Joblyst Props.

Lemma wf_datetimeb_true d : wf_datetimeb d = true -> wf_datetime d.
Proof.
  unfold wf_datetimeb, wf_datetime. rewrite !andb_true_iff.
  rewrite !Z.leb_le, !Z.ltb_lt. tauto.
Qed.

Lemma dt_ltb_true a b : dt_ltb a b = true -> dt_lt a b.
Proof. unfold dt_ltb, dt_lt. by destruct (dt_compare a b). Qed.

(** An entry stamped inside the retention window survives the operations
    of the store. *)
Lemma in_window_keeps ops : forall w job_id t,
  wf_datetime t ->
  history (jobHistory w) !! job_id = Some (isoformat t) ->
  in_window (retention_days (jobHistory w)) job_id t ops = true ->
  exists w', run_ops ops w = Some w' /\ is_sent job_id (jobHistory w') = true.
Proof.
  induction ops as [|op ops IH]; intros w job_id t Ht Hin Hw.
  - exists w. split; [reflexivity|]. apply is_sent_true. eauto.
  - destruct op as [now so job_id' | now so]; cbn [run_ops in_window] in *.
    + destruct (String.eqb_spec job_id' job_id) as [-> | Hne].
      * apply andb_prop in Hw as [Hnow Hw]. apply wf_datetimeb_true in Hnow.
        apply (IH _ job_id now Hnow); [|exact Hw].
        rewrite mark_as_sent_history. cbn [history]. apply lookup_insert_eq.
      * apply (IH _ job_id t Ht); [|exact Hw].
        rewrite mark_as_sent_history. cbn [history].
        by rewrite lookup_insert_ne.
    + apply andb_prop in Hw as [Hw Hrest]. apply andb_prop in Hw as [Hnow Hcut].
      apply wf_datetimeb_true in Hnow.
      destruct (sub_days now (retention_days (jobHistory w))) as [cutoff|] eqn:Hc;
        [|done].
      apply dt_ltb_true in Hcut.
      destruct (cleanup_history now so w cutoff Hc) as (w1 & Hrun & Hjh & _).
      rewrite Hrun.
      apply (IH w1 job_id t Ht).
      * rewrite Hjh. cbn [history]. apply keep_newer_lookup. split; [exact Hin|].
        apply gt_isoformat; [exact Ht | exact (sub_days_wf _ _ _ Hnow Hc) | exact Hcut].
      * rewrite Hjh. exact Hrest.
Qed.

Lemma posted_app evs1 evs2 : posted (evs1 ++ evs2) = (posted evs1 ++ posted evs2)%list.
Proof.
  induction evs1 as [|e evs1 IH]; [done|].
  destruct e; cbn [posted app]; by rewrite ?IH.
Qed.

Lemma step_ok_refl w : step_ok w w.
Proof.
  exists []. rewrite List.app_nil_r. repeat split; try done. constructor.
Qed.

Lemma step_ok_trans w1 w2 w3 : step_ok w1 w2 -> step_ok w2 w3 -> step_ok w1 w3.
Proof.
  intros (evs1 & Ht1 & Hk1 & Ha1 & Hp1 & Hn1) (evs2 & Ht2 & Hk2 & Ha2 & Hp2 & Hn2).
  exists (evs1 ++ evs2)%list. split; [by rewrite Ht2, Ht1, List.app_assoc|].
  split; [auto|]. split; [|split].
  - intros e job_id Hin Hab. apply in_app_or in Hin as [Hin|Hin]; [eauto|].
    specialize (Ha2 e job_id Hin Hab).
    destruct (is_sent job_id (jobHistory w1)) eqn:E; [|done].
    apply Hk1 in E. congruence.
  - intros job_id Hin. rewrite posted_app in Hin.
    apply in_app_or in Hin as [Hin|Hin]; auto.
  - rewrite posted_app. apply List.NoDup_app; [done..|].
    intros job_id Hin1 Hin2. apply Hp1 in Hin1.
    assert (exists e, In e evs2 /\ about job_id e = true) as (e & He & Hab).
    { clear -Hin2. induction evs2 as [|e evs2 IH]; [done|].
      destruct e as [h so | job | p po]; cbn [posted] in Hin2.
      - destruct (IH Hin2) as (e & He & Hab). exists e. split; [by right|done].
      - destruct (IH Hin2) as (e & He & Hab). exists e. split; [by right|done].
      - destruct Hin2 as [<- | Hin2].
        + exists (EvPost p po). split; [by left|]. cbn. apply String.eqb_refl.
        + destruct (IH Hin2) as (e & He & Hab). exists e. split; [by right|done]. }
    specialize (Ha2 e job_id He Hab). congruence.
Qed.


Section Run.

Variable allowedRoles : list string.
Variable allowedLocations : list string.
Variable minScore : Z.
Variable a : arith.
Variable embedding : Type.
Variable encode : string -> embedding.
Variable cosine : embedding -> embedding -> num a.
Variable cvEmbedding : embedding.
Variable cvSkills : list string.

Lemma process_job_skip o job w :
  is_sent (id job) (jobHistory w) = true ->
  process_job allowedRoles allowedLocations minScore a embedding encode cosine
    cvEmbedding cvSkills o job w = (w, 0%nat).
Proof. intros H. unfold process_job. by rewrite H. Qed.

Lemma process_job_ok o job w :
  step_ok w (process_job allowedRoles allowedLocations minScore a embedding encode
               cosine cvEmbedding cvSkills o job w).1.
Proof.
  unfold process_job.
  destruct (is_sent (id job) (jobHistory w)) eqn:Hs; [apply step_ok_refl|].
  destruct (roleFilter allowedRoles job); cbn [negb]; [|apply step_ok_refl].
  destruct (locationFilter allowedLocations job); cbn [negb]; [|apply step_ok_refl].
  destruct (experienceFilter job); cbn [negb]; [|apply step_ok_refl].
  destruct (skillsExclusionFilter job); cbn [negb]; [|apply step_ok_refl].
  set (score := scoreJobHybrid a embedding encode cosine job cvEmbedding cvSkills).
  destruct (minScore <=? score)%Z; cbn [fst].
  - rewrite sendToDiscord_fresh by exact Hs. cbv zeta.
    cbn [jobHistory history retention_days disk trace].
    exists [EvScore job;
            EvSave (<[id job := isoformat (o_now o)]> (history (jobHistory w))) (o_save o);
            EvPost (make_payload job score) (o_post o)].
    cbn [trace jobHistory]. split; [by rewrite <- !List.app_assoc|].
    assert (Hnew : is_sent (id job)
              (mkJobHistory (retention_days (jobHistory w))
                 (<[id job := isoformat (o_now o)]> (history (jobHistory w)))) = true).
    { apply is_sent_true. eexists. apply lookup_insert_eq. }
    split; [|split; [|split]].
    + intros job_id H. apply is_sent_true in H as [ts H]. apply is_sent_true.
      cbn [history]. destruct (decide (id job = job_id)) as [->|Hne].
      * eexists. apply lookup_insert_eq.
      * exists ts. by rewrite lookup_insert_ne.
    + intros e job_id Hin Hab.
      destruct Hin as [<- | [<- | [<- | []]]]; cbn in Hab; try done;
        apply String.eqb_eq in Hab; by subst job_id.
    + intros job_id [<- | []]. exact Hnew.
    + cbn. constructor; [by intros []|constructor].
  - exists [EvScore job]. cbn [trace jobHistory].
    split; [reflexivity|]. split; [auto|]. split; [|split].
    + intros e job_id [<- | []] Hab. cbn in Hab.
      apply String.eqb_eq in Hab. by subst job_id.
    + intros job_id [].
    + constructor.
Qed.

Lemma process_jobs_ok env allJobs : forall i w,
  step_ok w (process_jobs allowedRoles allowedLocations minScore a embedding encode
               cosine cvEmbedding cvSkills env i allJobs w).1.
Proof.
  induction allJobs as [|job rest IH]; intros i w; cbn [process_jobs].
  - apply step_ok_refl.
  - pose proof (process_job_ok (env i) job w) as H1.
    destruct (process_job _ _ _ _ _ _ _ _ _ _ _ _) as [w1 m1].
    pose proof (IH (S i) w1) as H2.
    destruct (process_jobs _ _ _ _ _ _ _ _ _ _ _ _ _) as [w2 m2].
    cbn [fst] in *. eapply step_ok_trans; eauto.
Qed.

Lemma step_ok_silent w w' job_id :
  step_ok w w' ->
  is_sent job_id (jobHistory w) = true ->
  exists evs, trace w' = (trace w ++ evs)%list /\
              Forall (fun e => about job_id e = false) evs /\
              is_sent job_id (jobHistory w') = true.
Proof.
  intros (evs & Ht & Hk & Ha & _) Hs. exists evs.
  split; [exact Ht|]. split; [|auto].
  apply List.Forall_forall. intros e Hin.
  destruct (about job_id e) eqn:E; [|done].
  specialize (Ha e job_id Hin E). congruence.
Qed.

(** C1: an id marked as sent is reported as sent, and stays so through
    any later marks and cleanups while its entry is inside the retention
    window (every cleanup runs with a cutoff before the time of the
    stamp).  A run skips a job whose id is in the history: the world is
    left as it is, the scorer is not called and nothing is posted.  Over a
    whole loop, and over a whole run for an entry newer than the cutoff of
    the initial cleanup, the trace gains no scorer call and no post for
    such an id, the id is still in the history at the end, and no id is
    posted twice. *)
Theorem idempotent_delivery :
  (forall w now so job_id ops,
      wf_datetime now ->
      in_window (retention_days (jobHistory w)) job_id now ops = true ->
      is_sent job_id (jobHistory (mark_as_sent now so job_id w)) = true /\
      exists w', run_ops ops (mark_as_sent now so job_id w) = Some w' /\
                 is_sent job_id (jobHistory w') = true) /\
  (forall o job w,
      is_sent (id job) (jobHistory w) = true ->
      process_job allowedRoles allowedLocations minScore a embedding encode cosine
        cvEmbedding cvSkills o job w = (w, 0%nat)) /\
  (forall env i allJobs w,
      let w' := (process_jobs allowedRoles allowedLocations minScore a embedding
                   encode cosine cvEmbedding cvSkills env i allJobs w).1 in
      exists evs,
        trace w' = (trace w ++ evs)%list /\
        List.NoDup (posted evs) /\
        forall job_id,
          is_sent job_id (jobHistory w) = true ->
          Forall (fun e => about job_id e = false) evs /\
          is_sent job_id (jobHistory w') = true) /\
  (forall o0 env allJobs w cutoff job_id ts,
      sub_days (o_now o0) (retention_days (jobHistory w)) = Some cutoff ->
      history (jobHistory w) !! job_id = Some ts ->
      gt ts (isoformat cutoff) = true ->
      exists w' m evs,
        runJoblyst allowedRoles allowedLocations minScore a embedding encode cosine
          cvEmbedding cvSkills o0 env allJobs w = Some (w', m) /\
        trace w' = (trace w ++ evs)%list /\
        Forall (fun e => about job_id e = false) evs /\
        is_sent job_id (jobHistory w') = true).
Proof.
  split; [|split; [|split]].
  - intros w now so job_id ops Hnow Hw.
    split; [apply mark_as_sent_is_sent|].
    apply (in_window_keeps ops _ job_id now Hnow); [|exact Hw].
    rewrite mark_as_sent_history. cbn [history]. apply lookup_insert_eq.
  - apply process_job_skip.
  - intros env i allJobs w. cbv zeta.
    pose proof (process_jobs_ok env allJobs i w) as Hok.
    destruct Hok as (evs & Ht & Hk & Ha & Hp & Hn).
    exists evs. split; [exact Ht|]. split; [exact Hn|].
    intros job_id Hs. split; [|auto].
    apply List.Forall_forall. intros e Hin.
    destruct (about job_id e) eqn:E; [|done].
    specialize (Ha e job_id Hin E). congruence.
  - intros o0 env allJobs w cutoff job_id ts Hc Hin Hgt.
    unfold runJoblyst.
    destruct (cleanup_history (o_now o0) (o_save o0) w cutoff Hc)
      as (w1 & Hrun & Hjh & _).
    rewrite Hrun.
    assert (Hs1 : is_sent job_id (jobHistory w1) = true).
    { apply is_sent_true. exists ts. rewrite Hjh. cbn [history].
      by apply keep_newer_lookup. }
    assert (Ht1 : exists evs0, trace w1 = (trace w ++ evs0)%list /\
                               Forall (fun e => about job_id e = false) evs0).
    { revert Hrun. unfold cleanup_old_entries. rewrite Hc.
      destruct (0 <? _)%nat; intros [= <-]; cbn [trace save].
      - eexists. split; [reflexivity|]. by repeat constructor.
      - exists []. by rewrite List.app_nil_r. }
    destruct Ht1 as (evs0 & Ht0 & Hf0).
    destruct allJobs as [|job rest].
    + exists w1, 0%nat, evs0. auto.
    + pose proof (process_jobs_ok env (job :: rest) 0 w1) as Hok.
      destruct (step_ok_silent _ _ job_id Hok Hs1) as (evs & Ht & Hf & Hs).
      destruct (process_jobs _ _ _ _ _ _ _ _ _ _ _ _ _) as [w2 m2] eqn:E.
      cbn [fst] in *.
      exists w2, m2, (evs0 ++ evs)%list. split; [reflexivity|].
      split; [by rewrite Ht, Ht0, List.app_assoc|].
      split; [by apply Forall_app|exact Hs].
Qed.

End Run.

Lemma idempotent_delivery_witness :
  exists w',
    run_ops [OpMark Samples.fresh_stamp SaveOk "other-job";
             OpCleanup Samples.boundary_now SaveOk]
            (mark_as_sent Samples.boundary_now SaveOk "acme-dev" Samples.mixed_world)
    = Some w' /\
    is_sent "acme-dev" (jobHistory w') = true.
Proof.
  destruct (idempotent_delivery [] [] 40%Z exact string Samples.text_encode
              (Samples.zero_cosine exact) "" []) as [Hstore _].
  apply (Hstore Samples.mixed_world Samples.boundary_now SaveOk "acme-dev"
           [OpMark Samples.fresh_stamp SaveOk "other-job";
            OpCleanup Samples.boundary_now SaveOk]).
  - vm_compute. intuition discriminate.
  - vm_compute. reflexivity.
Defined.

End Delivery.
(** ** Worked examples *)

Section Examples.

Import PyStr PyTime History PyNum Joblyst Props.

Example contains_ex : contains "lead" "team lead wanted" = true.
Proof. reflexivity. Qed.

Example count_ex : count "aa" "aaaaa" = 2%nat /\ count "qa" "qa lead, qa team" = 2%nat.
Proof. split; reflexivity. Qed.

Example strip_ex : strip "  a  b " = "a  b".
Proof. reflexivity. Qed.

Example lower_ex : lower "Acme Inc." = "acme inc.".
Proof. reflexivity. Qed.

Example cleanHtml_ex :
  cleanHtml (Some "<b>Senior</b>  Dev <br/> x < y > z <>") = "Senior   Dev   x   z <>" /\
  cleanHtml (Some "<<a>b> <") = "b> <" /\
  cleanHtml (Some "a < b") = "a < b" /\
  cleanHtml None = "".
Proof. repeat split; reflexivity. Qed.

Example isoformat_ex :
  isoformat (mkDatetime 2024 1 8 12 0 0 1) = "2024-01-08T12:00:00.000001" /\
  isoformat (mkDatetime 987 11 30 0 5 9 0) = "0987-11-30T00:05:09".
Proof. split; reflexivity. Qed.

Example sub_days_ex :
  sub_days (mkDatetime 2024 3 1 12 0 0 0) 1 = Some (mkDatetime 2024 2 29 12 0 0 0) /\
  sub_days (mkDatetime 2023 3 1 12 0 0 0) 1 = Some (mkDatetime 2023 2 28 12 0 0 0) /\
  sub_days (mkDatetime 2024 1 3 2 3 4 50) 7 = Some (mkDatetime 2023 12 27 2 3 4 50) /\
  sub_days (mkDatetime 1 1 3 2 3 4 50) 7 = None.
Proof. repeat split; reflexivity. Qed.

(** The scenario of the design document: skills python and react, a
    junior Python developer posting.  The filters accept, the keyword score
    is 1, both boosts apply; with no similarity at all the score is 65 in
    exact arithmetic and 64 in binary64, above the default threshold of
    40, and the run posts the job once and records its id; a second run
    over the same job does nothing. *)
Example junior_scenario :
  normalizeJob (Some "Junior Python Developer") (Some "Acme") (Some "Lahore")
    (Some "entry level role using Python and React")
    "https://acme.example/jobs/2" None = Some Samples.junior_job /\
  experienceFilter Samples.junior_job = true /\
  roleFilter [] Samples.junior_job = true /\
  (computeKeywordScore exact Samples.junior_job Samples.two_skills == 1)%Q /\
  scoreJobHybrid exact string Samples.text_encode (Samples.zero_cosine exact)
    Samples.junior_job "" Samples.two_skills = 65%Z /\
  scoreJobHybrid binary64 string Samples.text_encode (Samples.zero_cosine binary64)
    Samples.junior_job "" Samples.two_skills = 64%Z /\
  let run := process_jobs [] ["lahore"] 40%Z binary64 string Samples.text_encode
               (Samples.zero_cosine binary64) "" Samples.two_skills
               Samples.always_noon 0 in
  let w1 := (run [Samples.junior_job] Samples.empty_world).1 in
  posted (trace w1) = ["acme-junior python developer"] /\
  is_sent "acme-junior python developer" (jobHistory w1) = true /\
  run [Samples.junior_job] w1 = (w1, 0%nat).
Proof. vm_compute. repeat split; reflexivity. Qed.

End Examples.

(** * Further properties *)

(** ** Order of strings *)

Section StringOrder.

Import PyStr PyTime History Props Props2.

Lemma ascii_compare_refl c : Ascii.compare c c = Eq.
Proof. apply N.compare_refl. Qed.

Lemma ascii_compare_eq c d : Ascii.compare c d = Eq -> c = d.
Proof. apply Ascii.compare_eq_iff. Qed.

Lemma ascii_compare_lt_trans c d e :
  Ascii.compare c d = Lt -> Ascii.compare d e = Lt -> Ascii.compare c e = Lt.
Proof.
  unfold Ascii.compare. rewrite !N.compare_lt_iff. apply N.lt_trans.
Qed.

Lemma str_compare_lt_trans a : forall b c,
  String.compare a b = Lt -> String.compare b c = Lt -> String.compare a c = Lt.
Proof.
  induction a as [|x a IH]; intros [|y b] [|z c]; cbn; try done.
  destruct (Ascii.compare x y) eqn:Exy; try done;
    destruct (Ascii.compare y z) eqn:Eyz; try done.
  - apply ascii_compare_eq in Exy, Eyz. subst. rewrite ascii_compare_refl.
    apply IH.
  - apply ascii_compare_eq in Exy. subst. by rewrite Eyz.
  - apply ascii_compare_eq in Eyz. subst. by rewrite Exy.
  - by rewrite (ascii_compare_lt_trans _ _ _ Exy Eyz).
Qed.

Lemma str_compare_antisym a b :
  String.compare a b = CompOpp (String.compare b a).
Proof. apply String.compare_antisym. Qed.

Lemma str_lt_irrefl s : lt s s = false.
Proof. unfold lt, String.ltb. by rewrite string_compare_refl. Qed.

Lemma str_lt_trans a b c : lt a b = true -> lt b c = true -> lt a c = true.
Proof.
  unfold lt, String.ltb.
  destruct (String.compare a b) eqn:E1; try done.
  destruct (String.compare b c) eqn:E2; try done.
  by rewrite (str_compare_lt_trans _ _ _ E1 E2).
Qed.

Lemma str_le_refl s : leq s s = true.
Proof. unfold leq. change (String.ltb s s) with (lt s s). by rewrite str_lt_irrefl. Qed.

Lemma str_le_cases a b : leq a b = true <-> lt a b = true \/ a = b.
Proof.
  unfold leq, lt, String.ltb. rewrite (str_compare_antisym b a).
  destruct (String.compare a b) eqn:E; cbn; split; try tauto; try done.
  - intros _. right. by apply String.compare_eq_iff.
  - intros [H | ->]; [done|]. by rewrite string_compare_refl in E.
Qed.

Lemma str_le_trans a b c : leq a b = true -> leq b c = true -> leq a c = true.
Proof.
  rewrite !str_le_cases. intros [H1 | ->] [H2 | ->]; eauto using str_lt_trans.
Qed.

Lemma str_le_total a b : leq a b = true \/ leq b a = true.
Proof.
  unfold leq, String.ltb. rewrite (str_compare_antisym b a).
  destruct (String.compare a b); cbn; auto.
Qed.

Lemma str_lt_le a b : lt a b = true -> leq a b = true.
Proof. intros H. apply str_le_cases. by left. Qed.

Lemma str_not_lt_le a b : lt a b = false -> leq b a = true.
Proof. unfold leq, lt. by intros ->. Qed.

Lemma str_gt_lt a b : gt a b = lt b a.
Proof. reflexivity. Qed.

Lemma str_le_lt_trans a b c : leq a b = true -> lt b c = true -> lt a c = true.
Proof. rewrite str_le_cases. intros [H | ->] H2; eauto using str_lt_trans. Qed.

End StringOrder.

(** ** Statistics of the history *)

Section StatsFacts.

Import PyStr PyTime History Joblyst Props Props2 Stats.

Lemma py_min_spec l : forall x,
  (py_min x l = x \/ In (py_min x l) l) /\
  leq (py_min x l) x = true /\
  (forall y, In y l -> leq (py_min x l) y = true).
Proof.
  induction l as [|z l IH]; intros x; cbn [py_min fold_left].
  - split; [by left|]. split; [apply str_le_refl | by intros y []].
  - destruct (IH (if lt z x then z else x)) as (Hin & Hle & Hall).
    change (fold_left _ l _) with (py_min (if lt z x then z else x) l) in *.
    set (m := py_min _ l) in *.
    destruct (lt z x) eqn:E.
    + split; [destruct Hin as [-> | Hin]; right; [by left | by right]|].
      split; [eapply str_le_trans; [exact Hle | by apply str_lt_le]|].
      intros y [<- | Hy]; auto.
    + split; [destruct Hin as [-> | Hin]; [by left | right; by right]|].
      split; [exact Hle|].
      intros y [<- | Hy]; [|auto].
      eapply str_le_trans; [exact Hle | by apply str_not_lt_le].
Qed.

Lemma py_max_spec l : forall x,
  (py_max x l = x \/ In (py_max x l) l) /\
  leq x (py_max x l) = true /\
  (forall y, In y l -> leq y (py_max x l) = true).
Proof.
  induction l as [|z l IH]; intros x; cbn [py_max fold_left].
  - split; [by left|]. split; [apply str_le_refl | by intros y []].
  - destruct (IH (if gt z x then z else x)) as (Hin & Hle & Hall).
    change (fold_left _ l _) with (py_max (if gt z x then z else x) l) in *.
    set (m := py_max _ l) in *.
    destruct (gt z x) eqn:E.
    + split; [destruct Hin as [-> | Hin]; right; [by left | by right]|].
      split; [eapply str_le_trans; [apply str_lt_le; exact E | exact Hle]|].
      intros y [<- | Hy]; auto.
    + split; [destruct Hin as [-> | Hin]; [by left | right; by right]|].
      split; [exact Hle|].
      intros y [<- | Hy]; [|auto].
      eapply str_le_trans; [apply str_not_lt_le; exact E | exact Hle].
Qed.

Lemma history_values jh ts :
  In ts (map_to_list (history jh)).*2 <->
  exists job_id, history jh !! job_id = Some ts.
Proof.
  rewrite <- list_elem_of_In, list_elem_of_fmap. split.
  - intros ([k v] & -> & Hin). exists k. by apply elem_of_map_to_list.
  - intros (k & Hk). exists (k, ts). split; [done|]. by apply elem_of_map_to_list.
Qed.

(** X1: [get_stats] on an empty history gives a count of 0 and no oldest
    or newest entry; on a history that is not empty the count is the number
    of entries, the oldest and the newest entry are timestamps of the
    history, and every timestamp of the history lies between them. *)
Theorem get_stats_bounds (jh : JobHistory) :
  (history jh = ∅ -> get_stats jh = mkStats 0 None None) /\
  (history jh <> ∅ ->
   exists lo hi,
     get_stats jh = mkStats (size (history jh)) (Some lo) (Some hi) /\
     (exists i, history jh !! i = Some lo) /\
     (exists i, history jh !! i = Some hi) /\
     forall job_id ts, history jh !! job_id = Some ts ->
                       leq lo ts = true /\ leq ts hi = true).
Proof.
  split.
  - intros E. unfold get_stats. rewrite E. by rewrite map_to_list_empty.
  - intros Hne. unfold get_stats.
    pose proof (history_values jh) as Hv.
    destruct ((map_to_list (history jh)).*2) as [|t ts] eqn:E.
    { exfalso. apply Hne. apply map_to_list_empty_iff.
      by apply fmap_nil_inv in E. }
    destruct (py_min_spec ts t) as (Hmin & Hminx & Hminl).
    destruct (py_max_spec ts t) as (Hmax & Hmaxx & Hmaxl).
    exists (py_min t ts), (py_max t ts). split; [reflexivity|].
    split; [apply Hv; destruct Hmin as [-> | H]; [by left | by right]|].
    split; [apply Hv; destruct Hmax as [-> | H]; [by left | by right]|].
    intros job_id x Hx.
    assert (Hin : In x (t :: ts)) by (apply Hv; eauto).
    destruct Hin as [<- | Hin]; split; auto.
Qed.

Lemma get_stats_bounds_witness :
  exists lo hi,
    get_stats Samples2.two_entry_history = mkStats 2 (Some lo) (Some hi) /\
    leq lo "2024-01-14T09:30:00" = true.
Proof.
  destruct (get_stats_bounds Samples2.two_entry_history) as [_ H].
  destruct H as (lo & hi & Hs & _ & _ & Hb).
  - intros E. apply (f_equal size) in E. vm_compute in E. discriminate E.
  - exists lo, hi. split; [exact Hs|].
    apply (Hb "company1-job1"). vm_compute. reflexivity.
Defined.

End StatsFacts.

(** ** The history store, continued *)

Section StoreFacts.

Import PyStr PyTime History Joblyst Props Props2 Stats.
Local Open Scope string_scope.

Lemma keep_newer_subseteq cutoff h : keep_newer cutoff h ⊆ h.
Proof. apply map_filter_subseteq. Qed.

Lemma keep_newer_size cutoff h : size (keep_newer cutoff h) <= size h.
Proof. apply map_subseteq_size, keep_newer_subseteq. Qed.

Lemma keep_newer_same_size cutoff h :
  size (keep_newer cutoff h) = size h -> keep_newer cutoff h = h.
Proof.
  intros E. apply map_subseteq_size_eq; [apply keep_newer_subseteq | lia].
Qed.

Lemma get_stats_total jh : total_jobs (get_stats jh) = size (history jh).
Proof.
  unfold get_stats.
  destruct ((map_to_list (history jh)).*2) as [|t ts] eqn:E; [|reflexivity].
  apply fmap_nil_inv, map_to_list_empty_iff in E. rewrite E.
  by rewrite map_size_empty.
Qed.

Lemma get_stats_oldest jh lo :
  oldest_entry (get_stats jh) = Some lo -> exists i, history jh !! i = Some lo.
Proof.
  unfold get_stats. pose proof (history_values jh) as Hv.
  destruct ((map_to_list (history jh)).*2) as [|t ts] eqn:E; [done|].
  cbn [oldest_entry]. intros [= <-]. apply Hv.
  destruct (py_min_spec ts t) as ([-> | H] & _); [by left | by right].
Qed.

(** X2: [mark_as_sent] stamps the id with the current time, replacing an
    earlier stamp, and leaves every other entry and the retention period as
    they were; the history grows by one entry when the id is new and keeps
    its size when it is not; and the history is written to the file once,
    after the entry is in it. *)
Theorem mark_as_sent_frame (now : datetime) (so : save_outcome)
    (job_id : string) (w : World) :
  let w' := mark_as_sent now so job_id w in
  history (jobHistory w') !! job_id = Some (isoformat now) /\
  (forall other, other <> job_id ->
     history (jobHistory w') !! other = history (jobHistory w) !! other) /\
  retention_days (jobHistory w') = retention_days (jobHistory w) /\
  (is_sent job_id (jobHistory w) = false ->
     size (history (jobHistory w')) = S (size (history (jobHistory w)))) /\
  (is_sent job_id (jobHistory w) = true ->
     size (history (jobHistory w')) = size (history (jobHistory w))) /\
  trace w' = (trace w ++ [EvSave (history (jobHistory w')) so])%list /\
  disk w' = save_history so (jobHistory w') (disk w).
Proof.
  cbv zeta. rewrite mark_as_sent_history. cbn [history retention_days].
  split; [apply lookup_insert_eq|].
  split; [intros other Hne; by apply lookup_insert_ne|].
  split; [reflexivity|].
  split; [intros H; apply is_sent_false in H; by apply map_size_insert_None|].
  split; [intros H; apply is_sent_true in H; by apply map_size_insert_Some|].
  split; reflexivity.
Qed.

Lemma mark_as_sent_frame_witness :
  size (history (jobHistory
          (mark_as_sent Samples.boundary_now SaveOk "acme-dev" Samples.boundary_world)))
    = 1%nat /\
  size (history (jobHistory
          (mark_as_sent Samples.boundary_now SaveOk "globex-intern" Samples.boundary_world)))
    = 2%nat.
Proof.
  split.
  - destruct (mark_as_sent_frame Samples.boundary_now SaveOk "acme-dev"
                Samples.boundary_world) as (_ & _ & _ & _ & H & _).
    rewrite H; vm_compute; reflexivity.
  - destruct (mark_as_sent_frame Samples.boundary_now SaveOk "globex-intern"
                Samples.boundary_world) as (_ & _ & _ & H & _).
    rewrite H; vm_compute; reflexivity.
Defined.

(** X3: what [cleanup_old_entries] does to the store.  The count it
    returns and the entries it keeps add up to the entries it found; it
    adds no entry and changes no timestamp or the retention period; when
    it removes nothing it leaves memory, file and trace exactly as they
    were (the file is not rewritten); when it removes something it writes
    the reduced history to the file once. *)
Theorem cleanup_accounting (now : datetime) (so : save_outcome)
    (w w' : World) (n : nat) :
  cleanup_old_entries now so w = Some (n, w') ->
  (n + size (history (jobHistory w')) = size (history (jobHistory w)))%nat /\
  history (jobHistory w') ⊆ history (jobHistory w) /\
  retention_days (jobHistory w') = retention_days (jobHistory w) /\
  (n = 0%nat -> w' = w) /\
  (n <> 0%nat ->
     trace w' = (trace w ++ [EvSave (history (jobHistory w')) so])%list /\
     disk w' = save_history so (jobHistory w') (disk w)).
Proof.
  unfold cleanup_old_entries.
  destruct (sub_days now (retention_days (jobHistory w))) as [cutoff|]; [|done].
  cbn [jobHistory history].
  pose proof (keep_newer_size (isoformat cutoff) (history (jobHistory w))) as Hle.
  pose proof (keep_newer_subseteq (isoformat cutoff) (history (jobHistory w))) as Hsub.
  set (k := keep_newer (isoformat cutoff) (history (jobHistory w))) in *.
  destruct (0 <? _)%nat eqn:Hr; intros [= <- <-]; cbn [jobHistory history
    retention_days save trace disk].
  - apply Nat.ltb_lt in Hr.
    split; [lia|]. split; [exact Hsub|]. split; [reflexivity|].
    split; [lia|]. intros _. split; reflexivity.
  - apply Nat.ltb_ge in Hr.
    split; [lia|]. split; [exact Hsub|]. split; [reflexivity|].
    split; [|lia]. intros _.
    assert (E : k = history (jobHistory w))
      by (apply keep_newer_same_size; fold k; lia).
    rewrite E, jobHistory_eta. apply world_eta.
Qed.

Lemma cleanup_accounting_witness :
  exists w',
    cleanup_old_entries Samples.boundary_now SaveOk Samples.mixed_world
      = Some (1%nat, w') /\
    size (history (jobHistory w')) = 1%nat /\
    disk w' = FileJson (history (jobHistory w')).
Proof.
  destruct (cleanup_old_entries Samples.boundary_now SaveOk Samples.mixed_world)
    as [[n w']|] eqn:E; [|vm_compute in E; discriminate E].
  assert (Hn : n = 1%nat) by (vm_compute in E; congruence).
  subst n. exists w'. split; [reflexivity|].
  destruct (cleanup_accounting _ _ _ _ _ E) as (Hsz & _ & _ & _ & Hw).
  split.
  - change (size (history (jobHistory Samples.mixed_world))) with 2%nat in Hsz. lia.
  - destruct Hw as [_ Hd]; [discriminate|]. exact Hd.
Defined.

Lemma days_before_year_bounds y :
  (1 <= y <= 9999 -> 365 * (y - 1) <= days_before_year y <= 3651694 - 365 * (9999 - y))%Z.
Proof.
  intros Hy. unfold days_before_year. cbv zeta.
  Z.div_mod_to_equations. lia.
Qed.

Lemma days_before_month_bounds y m :
  (1 <= m <= 12 -> 0 <= days_before_month y m <= 334 + b2z (is_leap y))%Z.
Proof.
  intros Hm. unfold days_before_month.
  assert (Hc : (m = 1 \/ m = 2 \/ m = 3 \/ m = 4 \/ m = 5 \/ m = 6 \/ m = 7 \/
                m = 8 \/ m = 9 \/ m = 10 \/ m = 11 \/ m = 12)%Z) by lia.
  destruct (is_leap y);
    repeat (destruct Hc as [-> | Hc]; [vm_compute; split; discriminate|]);
    subst m; vm_compute; split; discriminate.
Qed.

Lemma ymd2ord_bounds d :
  wf_datetime d ->
  (365 * (year d - 1) + 1 <= ymd2ord (year d) (month d) (day d) <= MAXORDINAL)%Z.
Proof.
  intros (Hy & Hm & Hd & _). unfold ymd2ord, MAXORDINAL.
  pose proof (days_before_year_bounds (year d) Hy) as Hby.
  pose proof (days_before_month_bounds (year d) (month d) Hm) as Hbm.
  assert (Hl : (year d = 9999 -> b2z (is_leap (year d)) = 0)%Z)
    by (intros ->; reflexivity).
  assert (Hb : (0 <= b2z (is_leap (year d)) <= 1)%Z)
    by (destruct (is_leap (year d)); cbn; lia).
  lia.
Qed.

Lemma sub_days_in_range now n :
  wf_datetime now -> (2 <= year now)%Z -> (0 <= n <= 365)%Z ->
  exists cutoff, sub_days now n = Some cutoff.
Proof.
  intros Hnow Hy Hr. pose proof (ymd2ord_bounds now Hnow) as Ho.
  unfold MAXORDINAL in Ho. unfold sub_days.
  destruct (999999999 <? _)%Z eqn:E1; [apply Z.ltb_lt in E1; lia|].
  destruct (_ && _) eqn:E2.
  - destruct (ord2ymd _) as [[y m] dd]. eauto.
  - apply andb_false_iff in E2 as [E2 | E2];
      [apply Z.ltb_ge in E2 | apply Z.leb_gt in E2]; unfold MAXORDINAL in *; lia.
Qed.

Lemma sub_days_too_far now n :
  (ymd2ord (year now) (month now) (day now) <= n)%Z -> sub_days now n = None.
Proof.
  intros Hr. unfold sub_days.
  destruct (999999999 <? _)%Z; [reflexivity|].
  destruct (_ && _) eqn:E2; [|reflexivity].
  apply andb_prop in E2 as [E2 _]. apply Z.ltb_lt in E2. lia.
Qed.

(** The two ways a cleanup can end. *)
Lemma cleanup_shape now so w n w' :
  cleanup_old_entries now so w = Some (n, w') ->
  (n = 0%nat /\ w' = w) \/
  (n <> 0%nat /\
   exists h', h' ⊆ history (jobHistory w) /\
     w' = mkWorld (mkJobHistory (retention_days (jobHistory w)) h')
            (save_history so (mkJobHistory (retention_days (jobHistory w)) h')
               (disk w))
            (trace w ++ [EvSave h' so])%list).
Proof.
  unfold cleanup_old_entries.
  destruct (sub_days now (retention_days (jobHistory w))) as [cutoff|]; [|done].
  cbn [jobHistory history].
  pose proof (keep_newer_size (isoformat cutoff) (history (jobHistory w))) as Hle.
  pose proof (keep_newer_subseteq (isoformat cutoff) (history (jobHistory w))) as Hsub.
  set (k := keep_newer (isoformat cutoff) (history (jobHistory w))) in *.
  destruct (0 <? _)%nat eqn:Hr; intros [= <- <-].
  - apply Nat.ltb_lt in Hr. right. split; [lia|]. exists k. split; [exact Hsub|].
    reflexivity.
  - apply Nat.ltb_ge in Hr. left. split; [lia|].
    assert (E : k = history (jobHistory w))
      by (apply keep_newer_same_size; fold k; lia).
    rewrite E, jobHistory_eta. apply world_eta.
Qed.

(** X4: the date arithmetic of [cleanup_old_entries] raises no error for a
    clock in the year 2 or later and a retention period of 0 to 365 days:
    the cutoff is a valid date and the call returns.  When the retention
    period reaches back to before the first supported day it raises
    instead. *)
Theorem cleanup_never_overflows (now : datetime) (so : save_outcome)
    (w : World) :
  wf_datetime now ->
  ((2 <= year now)%Z -> (0 <= retention_days (jobHistory w) <= 365)%Z ->
   exists cutoff n w',
     sub_days now (retention_days (jobHistory w)) = Some cutoff /\
     wf_datetime cutoff /\
     cleanup_old_entries now so w = Some (n, w')) /\
  ((ymd2ord (year now) (month now) (day now) <= retention_days (jobHistory w))%Z ->
   cleanup_old_entries now so w = None).
Proof.
  intros Hnow. split.
  - intros Hy Hr.
    destruct (sub_days_in_range now _ Hnow Hy Hr) as [cutoff Hc]. exists cutoff.
    destruct (cleanup_history now so w cutoff Hc) as (w' & Hrun & _).
    eexists _, w'. split; [exact Hc|].
    split; [exact (sub_days_wf _ _ _ Hnow Hc) | exact Hrun].
  - intros Hr. unfold cleanup_old_entries.
    by rewrite (sub_days_too_far _ _ Hr).
Qed.

Lemma cleanup_never_overflows_witness :
  (exists cutoff n w',
     sub_days Samples.boundary_now 7 = Some cutoff /\
     wf_datetime cutoff /\
     cleanup_old_entries Samples.boundary_now SaveOk Samples.mixed_world
       = Some (n, w')) /\
  cleanup_old_entries (mkDatetime 1 1 7 0 0 0 0) SaveOk Samples.mixed_world = None.
Proof.
  split.
  - destruct (cleanup_never_overflows Samples.boundary_now SaveOk Samples.mixed_world)
      as [H _]; [vm_compute; intuition discriminate|].
    apply H; vm_compute; [discriminate | split; discriminate].
  - destruct (cleanup_never_overflows (mkDatetime 1 1 7 0 0 0 0) SaveOk
                Samples.mixed_world) as [_ H]; [vm_compute; intuition discriminate|].
    apply H. vm_compute. discriminate.
Defined.

(** X5: the statistics that [runJoblyst] logs after the cleanup: the
    number of jobs tracked and the number removed add up to the number of
    entries before the cleanup, and the oldest entry left, when there is
    one, is newer than the cutoff. *)
Theorem stats_after_cleanup (now cutoff : datetime) (so : save_outcome)
    (w w' : World) (n : nat) :
  sub_days now (retention_days (jobHistory w)) = Some cutoff ->
  cleanup_old_entries now so w = Some (n, w') ->
  (total_jobs (get_stats (jobHistory w')) + n = size (history (jobHistory w)))%nat /\
  forall lo, oldest_entry (get_stats (jobHistory w')) = Some lo ->
             gt lo (isoformat cutoff) = true.
Proof.
  intros Hc Hrun.
  destruct (cleanup_history now so w cutoff Hc) as (w1 & Hrun1 & Hjh & _).
  rewrite Hrun in Hrun1. injection Hrun1 as Hn <-.
  rewrite get_stats_total, Hjh. cbn [history].
  pose proof (keep_newer_size (isoformat cutoff) (history (jobHistory w))).
  split; [lia|].
  intros lo Hlo. apply get_stats_oldest in Hlo as [i Hi].
  cbn [history] in Hi.
  by apply keep_newer_lookup in Hi as [_ Hgt].
Qed.

Lemma stats_after_cleanup_witness :
  exists w',
    cleanup_old_entries Samples.boundary_now SaveOk Samples.mixed_world
      = Some (1%nat, w') /\
    total_jobs (get_stats (jobHistory w')) = 1%nat.
Proof.
  destruct (cleanup_old_entries Samples.boundary_now SaveOk Samples.mixed_world)
    as [[n w']|] eqn:E; [|vm_compute in E; discriminate E].
  assert (Hn : n = 1%nat) by (vm_compute in E; congruence).
  subst n. exists w'. split; [reflexivity|].
  destruct (stats_after_cleanup Samples.boundary_now Samples.boundary_stamp SaveOk
              Samples.mixed_world w' 1 eq_refl E) as [Hsz _].
  change (size (history (jobHistory Samples.mixed_world))) with 2%nat in Hsz. lia.
Defined.

End StoreFacts.

(** ** Trimming and tag removal *)

Section Trimming.

Import PyStr PyTime History Joblyst Props Props2.
Local Open Scope string_scope.

Lemma lstrip_starts_clean s : starts_clean (lstrip s) = true.
Proof.
  induction s as [|c s IH]; [done|].
  cbn [lstrip]. destruct (is_space c) eqn:E; [exact IH|].
  cbn [starts_clean]. by rewrite E.
Qed.

Lemma rstrip_ends_clean s : ends_clean (rstrip s) = true.
Proof.
  induction s as [|c s IH]; [done|].
  rewrite rstrip_cons. destruct (rstrip s) as [|d r] eqn:E.
  - destruct (is_space c) eqn:Ec; [done|]. cbn [ends_clean]. by rewrite Ec.
  - exact IH.
Qed.

Lemma rstrip_starts_clean s :
  starts_clean s = true -> starts_clean (rstrip s) = true.
Proof.
  destruct s as [|c s]; [done|].
  cbn [starts_clean]. intros H. rewrite rstrip_cons.
  destruct (rstrip s); [|exact H].
  destruct (is_space c) eqn:E; [done|]. cbn [starts_clean]. by rewrite E.
Qed.

Lemma lstrip_id s : starts_clean s = true -> lstrip s = s.
Proof.
  destruct s as [|c s]; [done|]. cbn [starts_clean lstrip].
  by destruct (is_space c).
Qed.

Lemma rstrip_id s : ends_clean s = true -> rstrip s = s.
Proof.
  induction s as [|c s IH]; [done|].
  intros H. rewrite rstrip_cons. destruct s as [|d r].
  - cbn [rstrip]. cbn [ends_clean] in H. by destruct (is_space c).
  - rewrite IH by exact H. reflexivity.
Qed.

Lemma strip_clean s :
  starts_clean (strip s) = true /\ ends_clean (strip s) = true.
Proof.
  unfold strip. split.
  - apply rstrip_starts_clean, lstrip_starts_clean.
  - apply rstrip_ends_clean.
Qed.

Lemma strip_id s :
  starts_clean s = true -> ends_clean s = true -> strip s = s.
Proof.
  intros H1 H2. unfold strip. rewrite lstrip_id by exact H1. by apply rstrip_id.
Qed.

Lemma strip_idem s : strip (strip s) = strip s.
Proof. apply strip_id; apply strip_clean. Qed.

Lemma length_lstrip s : String.length (lstrip s) <= String.length s.
Proof.
  induction s as [|c s IH]; [done|].
  cbn [lstrip]. destruct (is_space c); cbn [String.length]; lia.
Qed.

Lemma length_rstrip s : String.length (rstrip s) <= String.length s.
Proof.
  induction s as [|c s IH]; [done|].
  rewrite rstrip_cons. destruct (rstrip s) as [|d r].
  - destruct (is_space c); cbn [String.length]; lia.
  - cbn [String.length] in *. lia.
Qed.

Lemma length_strip s : String.length (strip s) <= String.length s.
Proof.
  unfold strip. pose proof (length_rstrip (lstrip s)).
  pose proof (length_lstrip s). lia.
Qed.

Lemma length_sub_tags s : forall inside,
  String.length (sub_tags inside s) <= String.length s.
Proof.
  induction s as [|c s IH]; intros inside; [done|].
  cbn [sub_tags]. pose proof (IH true). pose proof (IH false).
  destruct inside.
  - destruct (is_char ">" c); cbn [String.length]; lia.
  - destruct (_ && _); cbn [String.length]; lia.
Qed.

Lemma sub_tags_id s : has_tag s = false -> sub_tags false s = s.
Proof.
  induction s as [|c s IH]; [done|].
  cbn [has_tag sub_tags]. intros H. apply orb_false_elim in H as [Hc Hs].
  rewrite Hc. by rewrite IH.
Qed.

Lemma has_lt_has_tag s : has_lt s = false -> has_tag s = false.
Proof.
  induction s as [|c s IH]; [done|].
  cbn [has_lt has_tag]. intros H. apply orb_false_elim in H as [Hc Hs].
  by rewrite Hc, IH.
Qed.

Lemma is_space_lower c : is_space (lower_char c) = is_space c.
Proof. by destruct c as [[] [] [] [] [] [] [] []]. Qed.

Lemma lstrip_lower s : lstrip (lower s) = lower (lstrip s).
Proof.
  induction s as [|c s IH]; [done|].
  cbn [lower lstrip]. rewrite is_space_lower.
  by destruct (is_space c).
Qed.

Lemma rstrip_lower s : rstrip (lower s) = lower (rstrip s).
Proof.
  induction s as [|c s IH]; [done|].
  cbn [lower]. rewrite !rstrip_cons, IH, is_space_lower.
  destruct (rstrip s); [|done]. cbn [lower]. by destruct (is_space c).
Qed.

Lemma strip_lower s : strip (lower s) = lower (strip s).
Proof. unfold strip. by rewrite lstrip_lower, rstrip_lower. Qed.

Lemma cleanHtml_Some s : cleanHtml (Some s) = strip (sub_tags false s).
Proof. by destruct s. Qed.

Lemma cleanHtml_fixed s :
  has_tag s = false -> strip s = s -> cleanHtml (Some s) = s.
Proof.
  intros Ht Hs. by rewrite cleanHtml_Some, sub_tags_id.
Qed.

(** X6: what [cleanHtml] returns has no whitespace at either end, so the
    [.strip()] that [normalizeJob] applies to it changes nothing; it is
    never longer than the text it was given; and a text without ["<"] is
    only trimmed. *)
Theorem cleanHtml_is_trimmed (text : option string) :
  starts_clean (cleanHtml text) = true /\
  ends_clean (cleanHtml text) = true /\
  strip (cleanHtml text) = cleanHtml text /\
  String.length (cleanHtml text) <= text_length text /\
  (forall s, text = Some s -> has_lt s = false -> cleanHtml text = strip s).
Proof.
  assert (Hc : starts_clean (cleanHtml text) = true /\
               ends_clean (cleanHtml text) = true).
  { destruct text as [s|]; [|done]. rewrite cleanHtml_Some. apply strip_clean. }
  destruct Hc as [H1 H2].
  split; [exact H1|]. split; [exact H2|].
  split; [by apply strip_id|]. split.
  - destruct text as [s|]; [|done]. rewrite cleanHtml_Some. cbn [text_length].
    pose proof (length_strip (sub_tags false s)).
    pose proof (length_sub_tags s false). lia.
  - intros s -> Hs. rewrite cleanHtml_Some.
    by rewrite sub_tags_id by (by apply has_lt_has_tag).
Qed.

Lemma cleanHtml_is_trimmed_witness :
  cleanHtml (Some "  Junior Developer (C++ > Java) ")
  = strip "  Junior Developer (C++ > Java) ".
Proof.
  destruct (cleanHtml_is_trimmed (Some "  Junior Developer (C++ > Java) "))
    as (_ & _ & _ & _ & H).
  apply H; reflexivity.
Defined.

End Trimming.

(** ** The normalizer, continued *)

Section NormalizerFacts.

Import PyStr PyTime History Joblyst Props Props2.
Local Open Scope string_scope.

Lemma truthy_Some s : truthy (Some s) = negb (String.eqb s "").
Proof. by destruct s. Qed.

Lemma truthy_Some_true s : s <> "" -> truthy (Some s) = true.
Proof. by destruct s. Qed.

(** A field that [normalizeJob] produced is left as it is by
    [cleanHtml(...).strip()]. *)
Lemma clean_fixed v :
  strip (cleanHtml (Some (strip (cleanHtml v)))) = strip (cleanHtml v).
Proof.
  rewrite (cleanHtml_fixed (strip (cleanHtml v))).
  - apply strip_idem.
  - apply has_tag_strip, has_tag_cleanHtml.
  - apply strip_idem.
Qed.

Lemma clean_fixed_lower v :
  strip (cleanHtml (Some (lower (strip (cleanHtml v))))) = lower (strip (cleanHtml v)).
Proof.
  rewrite (cleanHtml_fixed (lower (strip (cleanHtml v)))).
  - by rewrite strip_lower, strip_idem.
  - rewrite has_tag_lower. apply has_tag_strip, has_tag_cleanHtml.
  - by rewrite strip_lower, strip_idem.
Qed.

(** X7: [normalizeJob] is idempotent: a posting it returned, given back
    to it field by field, comes out unchanged, provided its title, company
    and location are not empty; with an empty title or company it is
    rejected instead. *)
Theorem normalizeJob_idempotent (t c l d : option string) (a : string)
    (e : option string) (j : Job) :
  normalizeJob t c l d a e = Some j ->
  (title j <> "" -> company j <> "" -> location j <> "" ->
   normalizeJob (Some (title j)) (Some (company j)) (Some (location j))
                (Some (description j)) (applyLink j) (email j) = Some j) /\
  (title j = "" \/ company j = "" ->
   normalizeJob (Some (title j)) (Some (company j)) (Some (location j))
                (Some (description j)) (applyLink j) (email j) = None).
Proof.
  intros H. apply normalizeJob_Some in H as (_ & _ & ->).
  cbn [title company location description applyLink email]. split.
  - intros Ht Hc Hl. unfold normalizeJob.
    rewrite (truthy_Some_true _ Ht), (truthy_Some_true _ Hc),
      (truthy_Some_true _ Hl). cbn [negb orb].
    rewrite !clean_fixed_lower, clean_fixed, !lower_idem.
    assert (El : strip (cleanHtml (Some (lower (if truthy l
                   then strip (cleanHtml l) else "pakistan"))))
                 = lower (if truthy l then strip (cleanHtml l) else "pakistan")).
    { destruct (truthy l); [apply clean_fixed_lower | reflexivity]. }
    rewrite El, lower_idem. reflexivity.
  - intros [E | E]; unfold normalizeJob; rewrite E; cbn [truthy negb orb];
      [reflexivity | by rewrite orb_true_r].
Qed.

Lemma normalizeJob_idempotent_witness :
  let j := mkJob "junior  python  developer" "Acme Corp" "pakistan"
                 "entry level" "https://acme.example/jobs/2" None
                 "acme corp-junior  python  developer" in
  normalizeJob (Some " Junior <b>Python</b> Developer ") (Some "Acme Corp")
               None (Some "Entry level") "https://acme.example/jobs/2" None
    = Some j /\
  normalizeJob (Some (title j)) (Some (company j)) (Some (location j))
               (Some (description j)) (applyLink j) (email j) = Some j.
Proof.
  cbv zeta.
  assert (E : normalizeJob (Some " Junior <b>Python</b> Developer ")
                (Some "Acme Corp") None (Some "Entry level")
                "https://acme.example/jobs/2" None
              = Some (mkJob "junior  python  developer" "Acme Corp" "pakistan"
                        "entry level" "https://acme.example/jobs/2" None
                        "acme corp-junior  python  developer"))
    by (vm_compute; reflexivity).
  split; [exact E|].
  destruct (normalizeJob_idempotent _ _ _ _ _ _ _ E) as [H _].
  apply H; discriminate.
Defined.

Lemma str_length_app (x y : string) :
  String.length (x ++ y) = String.length x + String.length y.
Proof.
  induction x as [|c x IH]; [by rewrite str_app_nil_l|].
  rewrite str_app_cons. cbn [String.length]. by rewrite IH.
Qed.

Lemma length_slice_to n : forall s, String.length (slice_to n s) <= n.
Proof.
  induction n as [|n IH]; intros [|c s]; cbn [slice_to String.length]; try lia.
  specialize (IH s). lia.
Qed.

Lemma lower_app x y : lower (x ++ y) = lower x ++ lower y.
Proof.
  induction x as [|c x IH]; [by rewrite !str_app_nil_l|].
  cbn [lower]. rewrite !str_app_cons. cbn [lower]. by rewrite IH.
Qed.

Lemma lower_slice_to n : forall s, lower (slice_to n s) = slice_to n (lower s).
Proof.
  induction n as [|n IH]; intros [|c s]; cbn [slice_to lower]; try done.
  by rewrite IH.
Qed.

Lemma contains_app_r p : forall x y, contains p y = true -> contains p (x ++ y) = true.
Proof.
  induction x as [|c x IH]; intros y H; [by rewrite str_app_nil_l|].
  rewrite str_app_cons. cbn [contains]. rewrite IH by exact H. apply orb_true_r.
Qed.

Lemma prefix_app_l p : forall x y,
  String.prefix p x = true -> String.prefix p (x ++ y) = true.
Proof.
  induction p as [|a p IH]; intros x y H; [by destruct (x ++ y)|].
  destruct x as [|b x]; [done|].
  rewrite str_app_cons. cbn [String.prefix] in *.
  destruct (ascii_dec a b); [|done]. by apply IH.
Qed.

Lemma contains_unfold p s :
  contains p s =
  String.prefix p s
  || match s with
     | EmptyString => false
     | String _ r => contains p r
     end.
Proof. by destruct s. Qed.

Lemma contains_app_l p : forall x y,
  contains p x = true -> contains p (x ++ y) = true.
Proof.
  induction x as [|c x IH]; intros y H.
  - cbn [contains] in H. rewrite orb_false_r in H.
    destruct p; [|done]. by destruct (""%string ++ y).
  - cbn [contains] in H. apply orb_prop in H as [H | H].
    + rewrite (contains_unfold p (String c x ++ y)).
      by rewrite (prefix_app_l _ _ _ H).
    + rewrite str_app_cons. cbn [contains]. rewrite IH by exact H.
      apply orb_true_r.
Qed.

(** X8: the id of an accepted posting is lower-case, holds a hyphen and
    has at most 71 characters, however long the company and the title
    are. *)
Theorem fingerprint_shape (t c l d : option string) (a : string)
    (e : option string) (j : Job) :
  normalizeJob t c l d a e = Some j ->
  String.length (id j) <= 71 /\
  lower (id j) = id j /\
  contains "-" (id j) = true.
Proof.
  intros H. apply normalizeJob_Some in H as (_ & _ & ->). cbn [id].
  set (C := strip (cleanHtml c)). set (T := strip (cleanHtml t)).
  split; [|split].
  - rewrite !str_length_app. cbn [String.length].
    pose proof (length_slice_to 30 (lower C)).
    pose proof (length_slice_to 40 (lower T)). lia.
  - rewrite !lower_app, !lower_slice_to, !lower_idem. reflexivity.
  - apply contains_app_r. apply contains_app_l. reflexivity.
Qed.

Lemma fingerprint_shape_witness :
  String.length
    (id (mkJob "junior python developer" "Acme Corp" "pakistan" "entry level"
               "https://acme.example/jobs/2" None
               "acme corp-junior python developer")) <= 71.
Proof.
  apply (fingerprint_shape (Some "Junior Python Developer") (Some "Acme Corp")
           None (Some "Entry level") "https://acme.example/jobs/2" None).
  vm_compute. reflexivity.
Defined.

End NormalizerFacts.

(** ** The filters, continued *)

Section FilterFacts.

Import PyStr PyTime History Joblyst Props Props2.
Local Open Scope string_scope.

Lemma any_in_In ps s :
  any_in ps s = true <-> exists p, In p ps /\ contains p s = true.
Proof. unfold any_in. apply existsb_exists. Qed.

Lemma any_in_false ps s p :
  any_in ps s = false -> In p ps -> contains p s = false.
Proof.
  intros H Hin. destruct (contains p s) eqn:E; [|done].
  assert (any_in ps s = true) by (apply any_in_In; eauto). congruence.
Qed.

Lemma reject_scan_any ps text : reject_scan ps text = any_in ps text.
Proof.
  induction ps as [|p ps IH]; [done|].
  cbn [reject_scan any_in existsb]. rewrite IH. by destruct (contains p text).
Qed.

Lemma in_title_scan_any ts title : in_title_scan ts title = any_in ts title.
Proof.
  induction ts as [|p ps IH]; [done|].
  cbn [in_title_scan any_in existsb]. rewrite IH. by destruct (contains p title).
Qed.

Lemma emphasis_scan_exists ts text :
  emphasis_scan ts text = true <->
  exists tech, In tech ts /\ 2 <= count tech text.
Proof.
  induction ts as [|p ps IH]; cbn [emphasis_scan].
  - split; [done | by intros (? & [] & _)].
  - destruct (2 <=? count p text)%nat eqn:E.
    + apply Nat.leb_le in E. split; [|done]. intros _. exists p. split; [by left|done].
    + apply Nat.leb_gt in E. rewrite IH. split.
      * intros (t & Hin & Ht). exists t. split; [by right|done].
      * intros (t & [<- | Hin] & Ht); [lia|eauto].
Qed.

Lemma count_from_contains sub : forall s skip,
  0 < count_from sub skip s -> contains sub s = true.
Proof.
  induction s as [|c s IH]; intros skip H.
  - destruct skip; cbn [count_from] in H; [|lia].
    cbn [contains]. destruct (String.prefix sub ""); [done | lia].
  - rewrite contains_unfold. destruct skip as [|k]; cbn [count_from] in H.
    + destruct (String.prefix sub (String c s)); [done|].
      rewrite (IH _ H). apply orb_true_r.
    + rewrite (IH _ H). apply orb_true_r.
Qed.

Lemma count_contains sub s : 0 < count sub s -> contains sub s = true.
Proof. apply count_from_contains. Qed.

Lemma lower_combined t d : lower (combined t d) = combined (lower t) (lower d).
Proof. unfold combined. by rewrite !lower_app. Qed.

(** X9: [experienceFilter] accepts exactly the postings that have no
    reject pattern in title and description and have either a fresh
    pattern there or one of "developer", "engineer", "programmer" in the
    title.  The test that the title holds neither "senior" nor "lead", at
    the end of the function, never changes the result: such a title was
    rejected by the first loop. *)
Theorem experienceFilter_closed_form (job : Job) :
  experienceFilter job =
  negb (any_in rejectPatterns (combined (title job) (description job)))
  && (any_in freshPatterns (combined (title job) (description job))
      || any_in entryLevelTitles (title job)).
Proof.
  unfold experienceFilter. cbv zeta. rewrite reject_scan_any. unfold combined.
  destruct (any_in rejectPatterns _) eqn:R; [done|]. cbn [negb andb].
  destruct (any_in freshPatterns _); [done|]. cbn [orb].
  assert (Hs : contains "senior" (title job) = false).
  { destruct (contains "senior" (title job)) eqn:E; [|done].
    apply (contains_app_l _ _ (" " ++ description job)) in E.
    rewrite (any_in_false _ _ "senior" R) in E; [done|].
    unfold rejectPatterns. cbn. tauto. }
  assert (Hl : contains "lead" (title job) = false).
  { destruct (contains "lead" (title job)) eqn:E; [|done].
    apply (contains_app_l _ _ (" " ++ description job)) in E.
    rewrite (any_in_false _ _ "lead" R) in E; [done|].
    unfold rejectPatterns. cbn. tauto. }
  rewrite Hs, Hl. cbn [negb]. by destruct (any_in entryLevelTitles _).
Qed.

(** X10: [skillsExclusionFilter] rejects a posting exactly when some
    excluded technology occurs in the lower-cased title, or occurs twice or
    more (counted without overlap) in the lower-cased title and
    description; every rejection therefore rests on an excluded technology
    that the text mentions, and a posting whose lower-cased text mentions
    none of them passes. *)
Theorem skillsExclusionFilter_mentions (job : Job) :
  (skillsExclusionFilter job = false <->
   exists tech, In tech excludedTech /\
     (contains tech (lower (title job)) = true \/
      2 <= count tech (lower (combined (title job) (description job))))) /\
  (any_in excludedTech (lower (combined (title job) (description job))) = false ->
   skillsExclusionFilter job = true).
Proof.
  assert (Hiff : skillsExclusionFilter job = false <->
    exists tech, In tech excludedTech /\
     (contains tech (lower (title job)) = true \/
      2 <= count tech (lower (combined (title job) (description job))))).
  { unfold skillsExclusionFilter. cbv zeta. rewrite in_title_scan_any.
    rewrite lower_combined. split.
    - destruct (any_in excludedTech (lower (title job))) eqn:E1.
      + intros _. apply any_in_In in E1 as (t & Hin & Ht). eauto.
      + destruct (emphasis_scan _ _) eqn:E2; [|done]. intros _.
        apply emphasis_scan_exists in E2 as (t & Hin & Ht). eauto.
    - intros (t & Hin & [Ht | Ht]).
      + assert (E : any_in excludedTech (lower (title job)) = true)
          by (apply any_in_In; eauto). by rewrite E.
      + destruct (any_in excludedTech _); [done|].
        assert (E : emphasis_scan excludedTech
                      (combined (lower (title job)) (lower (description job))) = true)
          by (apply emphasis_scan_exists; eauto). by rewrite E. }
  split; [exact Hiff|].
  intros Hnone. destruct (skillsExclusionFilter job) eqn:E; [done|].
  destruct (proj1 Hiff eq_refl) as (t & Hin & [Ht | Ht]).
  - rewrite lower_combined in Hnone.
    apply (contains_app_l _ _ (" " ++ lower (description job))) in Ht.
    unfold combined in Hnone. by rewrite (any_in_false _ _ t Hnone Hin) in Ht.
  - assert (Hc : contains t (lower (combined (title job) (description job))) = true)
      by (apply count_contains; lia).
    by rewrite (any_in_false _ _ t Hnone Hin) in Hc.
Qed.

Lemma skillsExclusionFilter_mentions_witness :
  skillsExclusionFilter Samples.junior_job = true /\
  skillsExclusionFilter
    (mkJob "react developer" "Acme" "lahore"
           "php today, php tomorrow" "https://acme.example/jobs/5" None
           "acme-react developer") = false.
Proof.
  split.
  - destruct (skillsExclusionFilter_mentions Samples.junior_job) as [_ H].
    apply H. vm_compute. reflexivity.
  - destruct (skillsExclusionFilter_mentions
                (mkJob "react developer" "Acme" "lahore"
                       "php today, php tomorrow" "https://acme.example/jobs/5" None
                       "acme-react developer")) as [[_ H] _].
    apply H. exists "php". split; [unfold excludedTech; cbn; tauto|].
    right. vm_compute. lia.
Defined.

End FilterFacts.

(** ** The scorer, continued *)

Section ScorerFacts.

Import PyStr PyTime History PyNum Joblyst Props Props2.
Local Open Scope Q_scope.













End ScorerFacts.

(** ** The profile *)

Section ProfileFacts.

Import PyStr PyTime History PyNum Joblyst Props Props2 CvProfile.
Local Open Scope string_scope.

Lemma In_map_lower l skill : In skill (map lower l) -> lower skill = skill.
Proof.
  intros H. apply in_map_iff in H as (x & <- & _). apply lower_idem.
Qed.

(** X14: every entry of [cvSkills] is lower-case, for both formats of the
    skills of the profile, so the [skill.lower()] of [computeKeywordScore]
    finds them unchanged. *)
Theorem cvSkills_lower_case (skills : option skills_doc) (skill : string) :
  In skill (cvSkills_of skills) -> lower skill = skill.
Proof.
  destruct skills as [[elems | items]|]; cbn [cvSkills_of]; [| |done].
  - intros H. exact (In_map_lower _ _ H).
  - intros H. apply in_flat_map in H as (it & _ & H).
    unfold item_skills in H. destruct H as [<- | H]; [apply lower_idem|].
    destruct (s_keywords it); [exact (In_map_lower _ _ H) | done].
Qed.

Lemma cvSkills_lower_case_witness :
  lower "next.js" = "next.js".
Proof.
  apply (cvSkills_lower_case
           (Some (SkillsItems [mkSkillItem (Some "React") (Some ["Next.js"; "Redux"])]))).
  vm_compute. tauto.
Defined.

Lemma contains_empty s : contains "" s = true.
Proof. by destruct s. Qed.

(** X15: an item of the old skills format that has no name puts the
    empty string among [cvSkills], and the empty string is found in every
    text: such a skill earns the full credit of 1 on every posting. *)
Theorem nameless_skill_always_matches (items : list skill_item)
    (it : skill_item) :
  In it items -> s_name it = None ->
  In "" (cvSkills_of (Some (SkillsItems items))) /\
  forall (a : arith) (text : string) (matches : num a),
    add_credit a text matches "" = add a matches (of_int a 1).
Proof.
  intros Hin Hn. split.
  - cbn [cvSkills_of]. apply in_flat_map. exists it. split; [exact Hin|].
    unfold item_skills. rewrite Hn. by left.
  - intros a text matches. unfold add_credit. cbn [lower].
    by rewrite contains_empty.
Qed.

Lemma nameless_skill_always_matches_witness :
  In "" (cvSkills_of (Some (SkillsItems [mkSkillItem None (Some ["Docker"])]))).
Proof.
  destruct (nameless_skill_always_matches
              [mkSkillItem None (Some ["Docker"])]
              (mkSkillItem None (Some ["Docker"]))) as [H _];
    [by left | reflexivity | exact H].
Defined.

Lemma collapse_ws_starts_clean s : starts_clean (collapse_ws true s) = true.
Proof.
  induction s as [|c s IH]; [done|].
  cbn [collapse_ws]. destruct (is_space c) eqn:E; [exact IH|].
  cbn [starts_clean]. by rewrite E.
Qed.

Lemma collapsed_cons c s :
  collapsed (String c s) = (negb (is_space c) || starts_clean s) && collapsed s.
Proof.
  destruct s as [|d r]; cbn [collapsed starts_clean].
  - by rewrite orb_true_r.
  - by rewrite negb_andb.
Qed.

Lemma collapse_ws_collapsed s : forall in_run, collapsed (collapse_ws in_run s) = true.
Proof.
  induction s as [|c s IH]; intros in_run; [done|].
  cbn [collapse_ws]. destruct (is_space c) eqn:E.
  - destruct in_run; [apply IH|].
    rewrite collapsed_cons, collapse_ws_starts_clean, IH. by rewrite orb_true_r.
  - rewrite collapsed_cons, E, IH. reflexivity.
Qed.

Lemma collapse_ws_plain s : forall in_run, plain_spaces (collapse_ws in_run s) = true.
Proof.
  induction s as [|c s IH]; intros in_run; [done|].
  cbn [collapse_ws]. destruct (is_space c) eqn:E.
  - destruct in_run; [apply IH|]. cbn [plain_spaces]. by rewrite IH.
  - cbn [plain_spaces]. by rewrite E, IH.
Qed.

Lemma collapsed_tail c s : collapsed (String c s) = true -> collapsed s = true.
Proof. rewrite collapsed_cons. by intros [_ ?]%andb_prop. Qed.

Lemma collapsed_lstrip s : collapsed s = true -> collapsed (lstrip s) = true.
Proof.
  induction s as [|c s IH]; [done|].
  intros H. cbn [lstrip]. destruct (is_space c); [|exact H].
  apply IH. by apply collapsed_tail in H.
Qed.

Lemma rstrip_head s d r : rstrip s = String d r -> exists s', s = String d s'.
Proof.
  destruct s as [|c s]; [done|]. rewrite rstrip_cons.
  destruct (rstrip s).
  - destruct (is_space c); [done|]. intros [= <- _]. eauto.
  - intros [= <- _]. eauto.
Qed.

Lemma starts_clean_rstrip s : starts_clean s = true -> starts_clean (rstrip s) = true.
Proof. apply rstrip_starts_clean. Qed.

Lemma collapsed_rstrip s : collapsed s = true -> collapsed (rstrip s) = true.
Proof.
  induction s as [|c s IH]; [done|].
  rewrite collapsed_cons. intros [Hc Hs]%andb_prop.
  specialize (IH Hs). pose proof (rstrip_starts_clean s) as Hst.
  rewrite rstrip_cons. destruct (rstrip s) as [|d r] eqn:E.
  - by destruct (is_space c).
  - rewrite collapsed_cons, IH, andb_true_r.
    destruct (is_space c); [|done]. cbn [negb orb] in *. by apply Hst.
Qed.

Lemma collapsed_lower s : collapsed (lower s) = collapsed s.
Proof.
  induction s as [|c s IH]; [done|].
  cbn [lower]. rewrite !collapsed_cons, IH, is_space_lower.
  by destruct s; cbn [lower starts_clean]; rewrite ?is_space_lower.
Qed.

Lemma plain_spaces_lstrip s : plain_spaces s = true -> plain_spaces (lstrip s) = true.
Proof.
  induction s as [|c s IH]; [done|].
  intros H. cbn [lstrip]. destruct (is_space c); [|exact H].
  apply IH. cbn [plain_spaces] in H. by apply andb_prop in H as [_ ?].
Qed.

Lemma plain_spaces_rstrip s : plain_spaces s = true -> plain_spaces (rstrip s) = true.
Proof.
  induction s as [|c s IH]; [done|].
  cbn [plain_spaces]. intros [Hc Hs]%andb_prop. specialize (IH Hs).
  rewrite rstrip_cons. destruct (rstrip s) as [|d r] eqn:E.
  - destruct (is_space c) eqn:Ec; [done|]. cbn [plain_spaces]. by rewrite Ec.
  - change (plain_spaces (String c (String d r)))
      with ((negb (is_space c) || is_char " " c) && plain_spaces (String d r)).
    by rewrite Hc, IH.
Qed.

Lemma plain_char_lower c :
  negb (is_space (lower_char c)) || is_char " " (lower_char c)
  = negb (is_space c) || is_char " " c.
Proof. by destruct c as [[] [] [] [] [] [] [] []]. Qed.

Lemma plain_spaces_lower s : plain_spaces (lower s) = plain_spaces s.
Proof.
  induction s as [|c s IH]; [done|].
  cbn [lower plain_spaces]. by rewrite plain_char_lower, IH.
Qed.

Lemma space_not_gt c : is_space c = true -> is_char ">" c = false.
Proof. by destruct c as [[] [] [] [] [] [] [] []]. Qed.

Lemma space_not_lt c : is_space c = true -> is_char "<" c = false.
Proof. by destruct c as [[] [] [] [] [] [] [] []]. Qed.

Lemma has_gt_collapse_ws s : forall in_run,
  has_gt (collapse_ws in_run s) = has_gt s.
Proof.
  induction s as [|c s IH]; intros in_run; [done|].
  cbn [collapse_ws has_gt]. destruct (is_space c) eqn:E.
  - rewrite (space_not_gt c E). cbn [orb].
    destruct in_run; [apply IH|]. cbn [has_gt]. by rewrite IH.
  - cbn [has_gt]. by rewrite IH.
Qed.

Lemma opens_tag_collapse_ws s :
  opens_tag (collapse_ws false s) = true -> opens_tag s = true.
Proof.
  destruct s as [|d r]; [done|].
  cbn [collapse_ws]. destruct (is_space d) eqn:E; cbn [opens_tag].
  - rewrite has_gt_collapse_ws, (space_not_gt d E). by intros [_ ->]%andb_prop.
  - by rewrite has_gt_collapse_ws.
Qed.

Lemma has_tag_collapse_ws s : forall in_run,
  has_tag s = false -> has_tag (collapse_ws in_run s) = false.
Proof.
  induction s as [|c s IH]; intros in_run; [done|].
  cbn [has_tag]. intros H. apply orb_false_elim in H as [Hc Hs].
  cbn [collapse_ws]. destruct (is_space c) eqn:E.
  - destruct in_run; [by apply IH|]. cbn [has_tag]. by rewrite IH.
  - cbn [has_tag]. rewrite IH by exact Hs. rewrite orb_false_r.
    destruct (is_char "<" c); [|done]. cbn [andb] in *.
    destruct (opens_tag (collapse_ws false s)) eqn:Eo; [|done].
    apply opens_tag_collapse_ws in Eo. congruence.
Qed.

(** X16: the text that [extractCVText] hands to the embedding model is
    lower-case, has no whitespace at either end, has no two whitespace
    characters in a row and no whitespace other than the plain space, and
    holds no HTML tag. *)
Theorem extractCVText_normal_form (parts : list string) :
  let text := extractCVText parts in
  lower text = text /\
  starts_clean text = true /\ ends_clean text = true /\
  collapsed text = true /\ plain_spaces text = true /\
  has_tag text = false.
Proof.
  cbv zeta. unfold extractCVText. cbv zeta.
  set (t := collapse_ws false (sub_tags false (join_parts parts))).
  split; [apply lower_idem|].
  rewrite <- strip_lower. split; [apply strip_clean|]. split; [apply strip_clean|].
  rewrite strip_lower.
  split; [|split].
  - rewrite collapsed_lower. unfold strip.
    apply collapsed_rstrip, collapsed_lstrip, collapse_ws_collapsed.
  - rewrite plain_spaces_lower. unfold strip.
    apply plain_spaces_rstrip, plain_spaces_lstrip, collapse_ws_plain.
  - rewrite has_tag_lower. apply has_tag_strip, has_tag_collapse_ws, has_tag_sub_tags.
Qed.

End ProfileFacts.

(** ** The message *)

Section PayloadFacts.

Import PyStr PyTime History PyNum Joblyst Props Props2.
Local Open Scope string_scope.

Lemma length_slice_to_full n : forall s,
  n <= String.length s -> String.length (slice_to n s) = n.
Proof.
  induction n as [|n IH]; intros [|c s] H; cbn [slice_to String.length] in *;
    try lia.
  rewrite IH; lia.
Qed.

Lemma length_zero s : String.length s = 0 -> s = "".
Proof. by destruct s. Qed.

(** X17: the description that [sendToDiscord] puts in the message is never
    empty and never longer than 403 characters: an empty description is
    replaced by "No description available", one of up to 400 characters is
    sent as it is, and a longer one is cut to its first 400 characters
    followed by "...". *)
Theorem payload_description (job : Job) (score : Z) :
  let desc := p_desc (make_payload job score) in
  desc <> "" /\
  String.length desc <= 403 /\
  (description job = "" -> desc = "No description available") /\
  (description job <> "" -> String.length (description job) <= 400 ->
   desc = description job) /\
  (400 < String.length (description job) ->
   desc = slice_to 400 (description job) ++ "..." /\ String.length desc = 403).
Proof.
  cbv zeta. unfold make_payload. cbn [p_desc].
  set (d := description job).
  destruct (400 <? String.length d)%nat eqn:E.
  - apply Nat.ltb_lt in E.
    assert (Hl : String.length (slice_to 400 d ++ "...") = 403).
    { rewrite str_length_app, length_slice_to_full by lia. reflexivity. }
    destruct (slice_to 400 d ++ "...") as [|c r] eqn:Ed; [by cbn in Hl|].
    split; [done|]. split; [lia|]. split; [intros H; rewrite H in E; cbn in E; lia|].
    split; [lia|]. done.
  - apply Nat.ltb_ge in E. destruct d as [|c r] eqn:Ed.
    + split; [done|]. split; [cbn; lia|]. split; [done|]. split; [done|].
      cbn [String.length]. lia.
    + split; [done|]. split; [lia|]. split; [done|]. split; [done|]. lia.
Qed.

Lemma payload_description_witness :
  p_desc (make_payload Samples.junior_job 65)
  = "entry level role using python and react".
Proof.
  destruct (payload_description Samples.junior_job 65) as (_ & _ & _ & H & _).
  apply H; [discriminate | vm_compute; lia].
Defined.

End PayloadFacts.

(** ** The run *)

Section RunFacts.

Import PyStr PyTime History PyNum Joblyst Props Props2.

Variable allowedRoles : list string.
Variable allowedLocations : list string.
Variable minScore : Z.
Variable a : arith.
Variable embedding : Type.
Variable encode : string -> embedding.
Variable cosine : embedding -> embedding -> num a.
Variable cvEmbedding : embedding.
Variable cvSkills : list string.

(** The three ways an iteration of the loop can go. *)
Lemma process_job_cases o job w :
  let score := scoreJobHybrid a embedding encode cosine job cvEmbedding cvSkills in
  let pj := process_job allowedRoles allowedLocations minScore a embedding encode
              cosine cvEmbedding cvSkills o job w in
  (is_sent (id job) (jobHistory w) = true \/ passes allowedRoles allowedLocations job = false ->
   pj = (w, 0%nat)) /\
  (is_sent (id job) (jobHistory w) = false ->
   passes allowedRoles allowedLocations job = true ->
   qualifies allowedRoles allowedLocations minScore a embedding encode cosine
     cvEmbedding cvSkills job = false ->
   pj = (mkWorld (jobHistory w) (disk w) (trace w ++ [EvScore job]), 0%nat)) /\
  (is_sent (id job) (jobHistory w) = false ->
   qualifies allowedRoles allowedLocations minScore a embedding encode cosine
     cvEmbedding cvSkills job = true ->
   let h' := <[id job := isoformat (o_now o)]> (history (jobHistory w)) in
   pj = (mkWorld (mkJobHistory (retention_days (jobHistory w)) h')
           (save_history (o_save o)
              (mkJobHistory (retention_days (jobHistory w)) h') (disk w))
           (trace w ++ [EvScore job; EvSave h' (o_save o);
                        EvPost (make_payload job score) (o_post o)]),
         1%nat)).
Proof.
  cbv zeta. unfold qualifies, passes, process_job.
  destruct (is_sent (id job) (jobHistory w)) eqn:Hs.
  { split; [done|]. split; intros; done. }
  destruct (roleFilter allowedRoles job); cbn [negb andb];
    [|split; [done|]; split; intros; done].
  destruct (locationFilter allowedLocations job); cbn [negb andb];
    [|split; [done|]; split; intros; done].
  destruct (experienceFilter job); cbn [negb andb];
    [|split; [done|]; split; intros; done].
  destruct (skillsExclusionFilter job); cbn [negb andb];
    [|split; [done|]; split; intros; done].
  split; [by intros [|]|].
  destruct (minScore <=? _)%Z; (split; [intros; try done|intros; try done]).
  rewrite sendToDiscord_fresh by exact Hs. cbv zeta.
  cbn [jobHistory disk trace]. by rewrite <- !List.app_assoc.
Qed.

(** What the loop does, in one statement: the trace grows by blocks, the
    count is the number of posts, and the history grows by one entry per
    post. *)
Lemma process_jobs_trace env allJobs : forall i w,
  let r := process_jobs allowedRoles allowedLocations minScore a embedding encode
             cosine cvEmbedding cvSkills env i allJobs w in
  exists evs,
    trace r.1 = (trace w ++ evs)%list /\
    blocks allowedRoles allowedLocations minScore a embedding encode cosine
      cvEmbedding cvSkills evs /\
    r.2 = List.length (posted evs) /\
    size (history (jobHistory r.1)) = (size (history (jobHistory w)) + r.2)%nat /\
    retention_days (jobHistory r.1) = retention_days (jobHistory w) /\
    (r.2 <= List.length allJobs)%nat.
Proof.
  induction allJobs as [|job rest IH]; intros i w; cbn [process_jobs].
  - exists []. cbn. rewrite List.app_nil_r, Nat.add_0_r.
    repeat split; constructor.
  - destruct (process_job_cases (env i) job w) as (Hskip & Hlow & Hsend).
    cbv zeta in Hskip, Hlow, Hsend.
    destruct (process_job _ _ _ _ _ _ _ _ _ _ _ _) as [w1 m1] eqn:E1.
    specialize (IH (S i) w1). cbv zeta in IH.
    destruct (process_jobs _ _ _ _ _ _ _ _ _ _ _ _ _) as [w2 m2] eqn:E2.
    cbn [fst snd List.length] in *.
    destruct IH as (evs & Ht & Hb & Hm & Hsz & Hr & Hlen).
    destruct (is_sent (id job) (jobHistory w)) eqn:Hs;
      [|destruct (passes allowedRoles allowedLocations job) eqn:Hp;
        [destruct (qualifies allowedRoles allowedLocations minScore a embedding
                     encode cosine cvEmbedding cvSkills job) eqn:Hq|]].
    + injection (Hskip (or_introl eq_refl)) as -> ->.
      exists evs. repeat split; try done. lia.
    + injection (Hsend eq_refl eq_refl) as -> ->.
      cbn [trace jobHistory history retention_days] in *.
      eexists (_ :: _ :: _ :: evs). split; [by rewrite Ht, <- List.app_assoc|].
      split; [apply blocks_posted; [exact Hq | | exact Hb];
              eexists; apply lookup_insert_eq|].
      cbn [posted List.length]. split; [by rewrite Hm|].
      apply is_sent_false in Hs.
      rewrite (map_size_insert_None _ _ _ Hs) in Hsz.
      repeat split; try done; lia.
    + injection (Hlow eq_refl eq_refl eq_refl) as -> ->.
      cbn [trace jobHistory] in *.
      exists (EvScore job :: evs). split; [by rewrite Ht, <- List.app_assoc|].
      split; [by apply blocks_scored|].
      cbn [posted]. repeat split; try done. lia.
    + injection (Hskip (or_intror eq_refl)) as -> ->.
      exists evs. repeat split; try done. lia.
Qed.

(** X18: whatever the loop of [runJoblyst] adds to the trace consists of
    blocks, one for each job that reached the scorer: the call of the
    scorer alone for a job that passes the four filters and scores below
    [minScore]; for a job that passes them and scores at least [minScore],
    the call of the scorer, then the write of a history that holds the id
    of the job, then the post of the payload made from the job and its
    score.  So nothing is posted for a job that fails a filter or the
    threshold, and nothing is posted before its id is recorded. *)
Theorem loop_posts_only_matches (env : nat -> oracle) (i : nat)
    (allJobs : list Job) (w : World) :
  exists evs,
    trace (process_jobs allowedRoles allowedLocations minScore a embedding encode
             cosine cvEmbedding cvSkills env i allJobs w).1
      = (trace w ++ evs)%list /\
    blocks allowedRoles allowedLocations minScore a embedding encode cosine
      cvEmbedding cvSkills evs.
Proof.
  destruct (process_jobs_trace env allJobs i w) as (evs & Ht & Hb & _).
  eauto.
Qed.

(** X19: the number that the loop reports as [matchedJobs] is the number
    of posts it made and the number of entries by which the history grew;
    it is at most the number of jobs, and the retention period is as
    before. *)
Theorem matchedJobs_counts_posts (env : nat -> oracle) (i : nat)
    (allJobs : list Job) (w : World) :
  let r := process_jobs allowedRoles allowedLocations minScore a embedding encode
             cosine cvEmbedding cvSkills env i allJobs w in
  (exists evs, trace r.1 = (trace w ++ evs)%list /\
               r.2 = List.length (posted evs)) /\
  size (history (jobHistory r.1)) = (size (history (jobHistory w)) + r.2)%nat /\
  (r.2 <= List.length allJobs)%nat /\
  retention_days (jobHistory r.1) = retention_days (jobHistory w).
Proof.
  destruct (process_jobs_trace env allJobs i w)
    as (evs & Ht & _ & Hm & Hsz & Hr & Hlen).
  cbv zeta. eauto 10.
Qed.

(** After a loop over [allJobs], every job of the list that qualifies is
    in the history. *)
Lemma process_jobs_marks env allJobs : forall i w job,
  In job allJobs ->
  qualifies allowedRoles allowedLocations minScore a embedding encode cosine
    cvEmbedding cvSkills job = true ->
  is_sent (id job)
    (jobHistory (process_jobs allowedRoles allowedLocations minScore a embedding
                   encode cosine cvEmbedding cvSkills env i allJobs w).1) = true.
Proof.
  induction allJobs as [|j rest IH]; intros i w job Hin Hq; [done|].
  cbn [process_jobs].
  destruct (process_job_cases (env i) j w) as (_ & _ & Hsend).
  cbv zeta in Hsend.
  pose proof (process_job_ok allowedRoles allowedLocations minScore a embedding
                encode cosine cvEmbedding cvSkills (env i) j w) as Hok1.
  destruct (process_job _ _ _ _ _ _ _ _ _ _ _ _) as [w1 m1] eqn:E1.
  pose proof (process_jobs_ok allowedRoles allowedLocations minScore a embedding
                encode cosine cvEmbedding cvSkills env rest (S i) w1) as Hok2.
  specialize (IH (S i) w1 job).
  destruct (process_jobs _ _ _ _ _ _ _ _ _ _ _ _ _) as [w2 m2] eqn:E2.
  cbn [fst] in *. destruct Hin as [-> | Hin]; [|by apply IH].
  destruct Hok2 as (_ & _ & Hkeep & _). apply Hkeep.
  destruct (is_sent (id job) (jobHistory w)) eqn:Hs.
  - destruct Hok1 as (_ & _ & Hkeep1 & _). by apply Hkeep1.
  - injection (Hsend eq_refl Hq) as -> _. apply is_sent_true.
    cbn [jobHistory history]. eexists. apply lookup_insert_eq.
Qed.

(** A loop over jobs whose qualifying members are all in the history
    posts nothing and writes nothing. *)
Lemma process_jobs_quiet env allJobs : forall i w,
  (forall job, In job allJobs ->
     qualifies allowedRoles allowedLocations minScore a embedding encode cosine
       cvEmbedding cvSkills job = true ->
     is_sent (id job) (jobHistory w) = true) ->
  let r := process_jobs allowedRoles allowedLocations minScore a embedding encode
             cosine cvEmbedding cvSkills env i allJobs w in
  r.2 = 0%nat /\ jobHistory r.1 = jobHistory w /\ disk r.1 = disk w /\
  exists evs, trace r.1 = (trace w ++ evs)%list /\
              Forall (fun e => exists job, e = EvScore job) evs.
Proof.
  induction allJobs as [|job rest IH]; intros i w Hinv; cbn [process_jobs].
  - cbn. repeat split. exists []. by rewrite List.app_nil_r.
  - destruct (process_job_cases (env i) job w) as (Hskip & Hlow & _).
    cbv zeta in Hskip, Hlow.
    destruct (process_job _ _ _ _ _ _ _ _ _ _ _ _) as [w1 m1] eqn:E1.
    specialize (IH (S i) w1). cbv zeta in IH.
    destruct (process_jobs _ _ _ _ _ _ _ _ _ _ _ _ _) as [w2 m2] eqn:E2.
    cbn [fst snd] in *.
    destruct (is_sent (id job) (jobHistory w)) eqn:Hs;
      [|destruct (passes allowedRoles allowedLocations job) eqn:Hp;
        [destruct (qualifies allowedRoles allowedLocations minScore a embedding
                     encode cosine cvEmbedding cvSkills job) eqn:Hq|]].
    + injection (Hskip (or_introl eq_refl)) as -> ->.
      destruct IH as (-> & Hj & Hd & evs & Ht & Hall); [by intros; apply Hinv; [right|]|].
      repeat split; try done. eauto.
    + rewrite (Hinv job (or_introl eq_refl) Hq) in Hs. discriminate Hs.
    + injection (Hlow eq_refl eq_refl eq_refl) as -> ->.
      cbn [jobHistory disk trace] in IH.
      destruct IH as (-> & Hj & Hd & evs & Ht & Hall); [by intros; apply Hinv; [right|]|].
      repeat split; try done. exists (EvScore job :: evs).
      split; [by rewrite Ht, <- List.app_assoc|]. constructor; eauto.
    + injection (Hskip (or_intror eq_refl)) as -> ->.
      destruct IH as (-> & Hj & Hd & evs & Ht & Hall); [by intros; apply Hinv; [right|]|].
      repeat split; try done. eauto.
Qed.

(** X20: a second pass of the loop over the same jobs, right after the
    first, matches no job: it reports 0, posts nothing, writes nothing and
    leaves the history and the file as they are; all it does is score again
    the jobs that pass the filters and were below [minScore]. *)
Theorem second_pass_matches_nothing (env env' : nat -> oracle) (i i' : nat)
    (allJobs : list Job) (w : World) :
  let w1 := (process_jobs allowedRoles allowedLocations minScore a embedding encode
               cosine cvEmbedding cvSkills env i allJobs w).1 in
  let r := process_jobs allowedRoles allowedLocations minScore a embedding encode
             cosine cvEmbedding cvSkills env' i' allJobs w1 in
  r.2 = 0%nat /\ jobHistory r.1 = jobHistory w1 /\ disk r.1 = disk w1 /\
  exists evs, trace r.1 = (trace w1 ++ evs)%list /\
              Forall (fun e => exists job, e = EvScore job) evs.
Proof.
  cbv zeta. apply process_jobs_quiet.
  intros job Hin Hq. by apply process_jobs_marks.
Qed.

Lemma process_jobs_synced env allJobs : forall i w,
  (forall k, o_save (env k) = SaveOk) -> synced w ->
  synced (process_jobs allowedRoles allowedLocations minScore a embedding encode
            cosine cvEmbedding cvSkills env i allJobs w).1.
Proof.
  induction allJobs as [|job rest IH]; intros i w Henv Hw; cbn [process_jobs];
    [exact Hw|].
  destruct (process_job_cases (env i) job w) as (Hskip & Hlow & Hsend).
  cbv zeta in Hskip, Hlow, Hsend.
  destruct (process_job _ _ _ _ _ _ _ _ _ _ _ _) as [w1 m1] eqn:E1.
  specialize (IH (S i) w1 Henv).
  destruct (process_jobs _ _ _ _ _ _ _ _ _ _ _ _ _) as [w2 m2] eqn:E2.
  cbn [fst] in *. apply IH.
  destruct (is_sent (id job) (jobHistory w)) eqn:Hs;
    [|destruct (passes allowedRoles allowedLocations job) eqn:Hp;
      [destruct (qualifies allowedRoles allowedLocations minScore a embedding
                   encode cosine cvEmbedding cvSkills job) eqn:Hq|]].
  - by injection (Hskip (or_introl eq_refl)) as -> ->.
  - injection (Hsend eq_refl eq_refl) as -> ->.
    unfold synced. cbn [disk jobHistory history]. by rewrite Henv.
  - by injection (Hlow eq_refl eq_refl eq_refl) as -> ->.
  - by injection (Hskip (or_intror eq_refl)) as -> ->.
Qed.

(** X21: when every write of a run succeeds, the history file stays in
    step with the history in memory: if the file held the history before
    the run, it holds it after the run, and a store started from the file
    then is the store of the run. *)
Theorem run_keeps_file_in_step (o0 : oracle) (env : nat -> oracle)
    (allJobs : list Job) (w w' : World) (m : nat) :
  synced w ->
  o_save o0 = SaveOk -> (forall k, o_save (env k) = SaveOk) ->
  runJoblyst allowedRoles allowedLocations minScore a embedding encode cosine
    cvEmbedding cvSkills o0 env allJobs w = Some (w', m) ->
  synced w' /\
  init (disk w') (retention_days (jobHistory w')) = jobHistory w'.
Proof.
  intros Hw H0 Henv Hrun.
  assert (Hs : synced w').
  { unfold runJoblyst in Hrun.
    destruct (cleanup_old_entries _ _ w) as [[n w1]|] eqn:Hc; [|done].
    assert (Hw1 : synced w1).
    { apply cleanup_shape in Hc as [[_ ->] | (_ & h' & _ & ->)]; [exact Hw|].
      unfold synced. cbn [disk jobHistory history]. by rewrite H0. }
    destruct allJobs as [|job rest]; [by injection Hrun as <- _|].
    pose proof (process_jobs_synced env (job :: rest) 0 w1 Henv Hw1) as Hs.
    remember (process_jobs allowedRoles allowedLocations minScore a embedding
                encode cosine cvEmbedding cvSkills env 0 (job :: rest) w1) as r.
    injection Hrun as ->. exact Hs. }
  split; [exact Hs|].
  unfold init. unfold synced in Hs. rewrite Hs. apply jobHistory_eta.
Qed.


End RunFacts.

Section RunExamples.

Import PyStr PyTime History PyNum Joblyst Props Props2.

Lemma run_keeps_file_in_step_witness :
  exists w' m,
    runJoblyst ["developer"] ["lahore"] 50 exact string Samples.text_encode
      (Samples.zero_cosine exact) "cv" Samples.two_skills
      Samples.noon Samples.always_noon [Samples.junior_job] Samples2.synced_world
    = Some (w', m) /\
    init (disk w') (retention_days (jobHistory w')) = jobHistory w'.
Proof.
  destruct (runJoblyst ["developer"] ["lahore"] 50 exact string Samples.text_encode
              (Samples.zero_cosine exact) "cv" Samples.two_skills
              Samples.noon Samples.always_noon [Samples.junior_job]
              Samples2.synced_world) as [[w' m]|] eqn:E;
    [|vm_compute in E; discriminate E].
  exists w', m. split; [reflexivity|].
  apply (run_keeps_file_in_step ["developer"] ["lahore"] 50 exact string
           Samples.text_encode (Samples.zero_cosine exact) "cv" Samples.two_skills
           Samples.noon Samples.always_noon [Samples.junior_job]
           Samples2.synced_world w' m); [reflexivity | reflexivity | done | exact E].
Defined.


End RunExamples.

(** ** The scrapers: collecting without duplicates *)

Section ScrapeFacts.

Import PyStr PyTime History PyNum Joblyst Props Props2 Scrape.
Local Open Scope string_scope.

Lemma id_in_spec job_id jobs : id_in job_id jobs = true <-> In job_id (map id jobs).
Proof.
  unfold id_in. rewrite existsb_exists. split.
  - intros (x & Hin & Hx). apply String.eqb_eq in Hx. by subst.
  - intros H. exists job_id. split; [exact H | apply String.eqb_refl].
Qed.

Lemma id_in_false job_id jobs : id_in job_id jobs = false <-> ~ In job_id (map id jobs).
Proof.
  rewrite <- id_in_spec. destruct (id_in job_id jobs); split; done.
Qed.

Lemma linkedin_card_job jobs c : linkedin_card jobs c = append_if_new (card_job c) jobs.
Proof.
  unfold linkedin_card, card_job. by destruct (_ && _).
Qed.

Lemma linkedin_collect_found cards :
  linkedin_collect cards = collect_from (map card_job cards) [].
Proof.
  unfold linkedin_collect, collect_from. generalize (@nil Job).
  induction cards as [|c cards IH]; intros acc; [done|].
  cbn [fold_left map]. by rewrite linkedin_card_job, IH.
Qed.

Lemma append_if_new_spec job jobs :
  List.NoDup (map id jobs) ->
  let r := append_if_new job jobs in
  List.NoDup (map id r) /\
  (exists extra, r = (jobs ++ extra)%list /\ (List.length extra <= 1)%nat) /\
  (forall j, In j r -> In j jobs \/ job = Some j) /\
  (forall j, job = Some j -> In (id j) (map id r)) /\
  (forall j, job = Some j -> ~ In (id j) (map id jobs) -> In j r).
Proof.
  intros Hnd. cbv zeta. destruct job as [j|]; cbn [append_if_new].
  - destruct (id_in (id j) jobs) eqn:E.
    + apply id_in_spec in E. split; [exact Hnd|].
      split; [exists []; split; [by rewrite List.app_nil_r | cbn; lia]|].
      split; [auto|]. split; [by intros ? [= <-]|]. by intros ? [= <-] ?.
    + apply id_in_false in E. split.
      { rewrite map_app. cbn [map]. apply NoDup_ListNoDup, NoDup_app.
        split; [apply NoDup_ListNoDup, Hnd|].
        split; [|apply NoDup_singleton].
        intros x Hx Hx2. apply list_elem_of_singleton in Hx2 as ->.
        apply E. by apply list_elem_of_In. }
      split; [exists [j]; split; [done | cbn; lia]|].
      split; [intros j' [H | [<- | []]]%in_app_or; auto|].
      split; [intros ? [= <-]; rewrite map_app; apply in_or_app; right; by left|].
      intros ? [= <-] _. apply in_or_app. right. by left.
  - split; [exact Hnd|]. split; [exists []; split; [by rewrite List.app_nil_r | cbn; lia]|].
    split; [auto|]. split; done.
Qed.

(** What the accumulation gives from any starting list without duplicate
    ids. *)
Lemma collect_from_spec found : forall jobs,
  List.NoDup (map id jobs) ->
  let r := collect_from found jobs in
  List.NoDup (map id r) /\
  (exists extra, r = (jobs ++ extra)%list /\
                 (List.length extra <= List.length found)%nat) /\
  (forall j, In j r -> In j jobs \/ In (Some j) found) /\
  (forall j, In (Some j) found -> In (id j) (map id r)).
Proof.
  induction found as [|job found IH]; intros jobs Hnd; cbv zeta.
  - cbn. split; [exact Hnd|]. split; [exists []; split; [by rewrite List.app_nil_r | cbn; lia]|].
    split; [auto|]. by intros ? [].
  - unfold collect_from. cbn [fold_left]. fold (collect_from found (append_if_new job jobs)).
    destruct (append_if_new_spec job jobs Hnd) as (Hnd1 & (e1 & He1 & Hl1) & Hin1 & Hid1 & _).
    cbv zeta in Hnd1, He1, Hin1, Hid1.
    destruct (IH _ Hnd1) as (Hnd2 & (e2 & He2 & Hl2) & Hin2 & Hid2).
    cbv zeta in Hnd2, He2, Hin2, Hid2.
    split; [exact Hnd2|]. split; [|split].
    + exists (e1 ++ e2)%list. rewrite He2, He1, <- List.app_assoc.
      split; [reflexivity|]. rewrite length_app. cbn [List.length]. lia.
    + intros j Hj. destruct (Hin2 j Hj) as [H | H]; [|right; by right].
      destruct (Hin1 j H) as [H' | H']; [by left | right; by left].
    + intros j [-> | Hj]; [|by apply Hid2].
      rewrite He2, map_app. apply in_or_app. left. by apply Hid1.
Qed.

Lemma unique_pass_id jobs : forall seen_ids unique_jobs,
  List.NoDup (map id jobs) ->
  (forall j, In j jobs -> id j ∉ seen_ids) ->
  unique_pass jobs seen_ids unique_jobs = (unique_jobs ++ jobs)%list.
Proof.
  induction jobs as [|job rest IH]; intros seen acc Hnd Hseen;
    cbn [unique_pass]; [by rewrite List.app_nil_r|].
  cbn [map] in Hnd. apply List.NoDup_cons_iff in Hnd as [Hnew Hnd].
  destruct (decide (id job ∈ seen)) as [Hin | _].
  - exfalso. by apply (Hseen job); [left|].
  - rewrite IH; [by rewrite <- List.app_assoc | exact Hnd |].
    intros j Hj [Hx | Hx]%elem_of_union.
    + apply elem_of_singleton in Hx. apply Hnew. rewrite <- Hx. by apply in_map.
    + by apply (Hseen j); [right|].
Qed.

(** X23: the list that [scrapeLinkedIn] builds while it reads the cards
    never holds two postings with the same id, so the pass over
    [seen_ids] at the end of the function removes nothing: what is returned
    is the list as it was collected.  There is at most one posting per
    card. *)
Theorem scrapeLinkedIn_no_duplicates (cards : list card) :
  List.NoDup (map id (scrapeLinkedIn cards)) /\
  scrapeLinkedIn cards = linkedin_collect cards /\
  List.length (scrapeLinkedIn cards) <= List.length cards.
Proof.
  assert (Hnil : List.NoDup (map id (@nil Job))) by constructor.
  destruct (collect_from_spec (map card_job cards) [] Hnil)
    as (Hnd & (extra & He & Hl) & _).
  cbv zeta in Hnd, He. rewrite <- linkedin_collect_found in Hnd, He.
  assert (E : scrapeLinkedIn cards = linkedin_collect cards).
  { unfold scrapeLinkedIn. rewrite unique_pass_id; [done | exact Hnd |].
    intros j _. apply not_elem_of_empty. }
  rewrite E. split; [exact Hnd|]. split; [reflexivity|].
  rewrite He. cbn [app]. by rewrite length_map in Hl.
Qed.

(** X24: every posting that [scrapeLinkedIn] returns is the normalized
    posting of one of the cards; every card with a title and a company is
    represented in the result by a posting with the id of its own
    normalized posting; and of the cards that share an id the first one
    wins: the posting of a card that no earlier card shares its id with is
    itself in the result. *)
Theorem scrapeLinkedIn_first_wins (cards : list card) :
  (forall j, In j (scrapeLinkedIn cards) ->
     exists c, In c cards /\ card_job c = Some j) /\
  (forall c j, In c cards -> card_job c = Some j ->
     In (id j) (map id (scrapeLinkedIn cards))) /\
  (forall pre c post j,
     cards = (pre ++ c :: post)%list -> card_job c = Some j ->
     (forall c' j', In c' pre -> card_job c' = Some j' -> id j' <> id j) ->
     In j (scrapeLinkedIn cards)).
Proof.
  assert (Hnil : List.NoDup (map id (@nil Job))) by constructor.
  assert (E : scrapeLinkedIn cards = collect_from (map card_job cards) []).
  { destruct (collect_from_spec (map card_job cards) [] Hnil) as (Hnd & _).
    cbv zeta in Hnd. unfold scrapeLinkedIn. rewrite linkedin_collect_found.
    rewrite unique_pass_id; [done | exact Hnd |].
    intros j _. apply not_elem_of_empty. }
  rewrite E.
  destruct (collect_from_spec (map card_job cards) [] Hnil)
    as (_ & _ & Hin & Hid). cbv zeta in Hin, Hid.
  split; [|split].
  - intros j Hj. destruct (Hin j Hj) as [[] | H].
    apply in_map_iff in H as (c & Hc & Hcin). eauto.
  - intros c j Hc Hj. apply Hid. rewrite <- Hj. by apply in_map.
  - intros pre c post j -> Hj Hpre.
    rewrite map_app. cbn [map]. unfold collect_from.
    rewrite fold_left_app. cbn [fold_left].
    fold (collect_from (map card_job pre) []).
    destruct (collect_from_spec (map card_job pre) [] Hnil)
      as (Hnd1 & _ & Hin1 & _). cbv zeta in Hnd1, Hin1.
    set (jobs1 := collect_from (map card_job pre) []) in *.
    destruct (append_if_new_spec (card_job c) jobs1 Hnd1)
      as (Hnd2 & _ & _ & _ & Hnew). cbv zeta in Hnd2, Hnew.
    fold (collect_from (map card_job post) (append_if_new (card_job c) jobs1)).
    destruct (collect_from_spec (map card_job post) _ Hnd2)
      as (_ & (extra & -> & _) & _).
    apply in_or_app. left. apply (Hnew j Hj).
    intros H. apply in_map_iff in H as (j' & Hid' & Hj').
    destruct (Hin1 j' Hj') as [[] | H].
    apply in_map_iff in H as (c' & Hc' & Hcin).
    by apply (Hpre c' j' Hcin Hc').
Qed.

Lemma scrapeLinkedIn_first_wins_witness :
  In (id (mkJob "junior python developer" "ACME" "karachi"
            "junior python developer position at acme. location: karachi"
            "https://acme.example/jobs/9" None "acme-junior python developer"))
     (map id (scrapeLinkedIn [Samples2.card_a; Samples2.card_b; Samples2.card_c])).
Proof.
  destruct (scrapeLinkedIn_first_wins
              [Samples2.card_a; Samples2.card_b; Samples2.card_c]) as (_ & H & _).
  apply (H Samples2.card_b); [right; by left | vm_compute; reflexivity].
Defined.

End ScrapeFacts.
